(** * The back-handler stack of vue-spark/back-handler

    A shallow embedding of [src/back-handler.ts] (the static class
    [BackHandler]) and [src/use-back-handler.ts] (the composable
    [useBackHandler]), followed by the properties of the registry that the
    specification states.

    Conventions of the embedding.
    - A JavaScript object is known by its reference: an entry carries the
      field [ref], and [Array.prototype.indexOf] (strict equality on objects)
      compares references only.
    - Callbacks supplied by the application (handlers, [fallback], the
      observers, [bind]) are modelled by what the registry can see of them:
      that they were called (an [Event] in the trace) and how they completed.
    - A method is a computation in the monad [M]: it reads and writes the
      static fields, emits events, and either returns, throws, or hangs on an
      [await] that never settles.  A throw does not roll the state back. *)

From stdpp Require Import base list.
From Stdlib Require Import Lia.

Set Default Proof Using "Type".

(* ------------------------------------------------------------------------- *)
(** * Data *)

(** The values a handler may produce: [void | boolean]. *)
Inductive Value : Type :=
| VUndefined
| VBool (b : bool).

(** [result !== false] *)
Definition is_not_false (v : Value) : bool :=
  match v with
  | VBool false => false
  | _ => true
  end.

(** How one call of a handler, [() => void | boolean | Promise<void | boolean>],
    completes. *)
Inductive Completion : Type :=
| Returns (v : Value)      (* synchronous return *)
| ThrowsSync               (* synchronous throw *)
| Resolves (v : Value)     (* promise, fulfilled with [v] *)
| Rejects                  (* promise, rejected *)
| NeverSettles.            (* promise that stays pending *)

(** [interface BackHandlerEntry { handler }]; [ref] is the object's identity. *)
Record BackHandlerEntry : Type := mkEntry {
  ref : nat;
  handler : unit -> Completion;
}.

(** An application callback taking an [A]: its identity, and whether the call
    throws on a given argument. *)
Record Fn (A : Type) : Type := mkFn {
  fn_ref : nat;
  fn_throws : A -> bool;
}.
Arguments mkFn {A} _ _.
Arguments fn_ref {A} _.
Arguments fn_throws {A} _ _.

(** [interface BackHandlerOptions] *)
Record BackHandlerOptions : Type := mkOptions {
  fallback : Fn unit;
  onPush : option (Fn BackHandlerEntry);
  onRemove : option (Fn BackHandlerEntry);
}.

(** The static fields of [class BackHandler]. *)
Record Static : Type := mkStatic {
  stack : list BackHandlerEntry;
  _options : option BackHandlerOptions;
  isInitialized : bool;
}.

(** [stack = []], [_options = null], [isInitialized = false] *)
Definition initial : Static :=
  {| stack := []; _options := None; isInitialized := false |}.

Inductive Error : Type :=
| NotInitialized           (* new Error('BackHandler is not initialized!') *)
| HandlerFailed            (* a handler threw or its promise was rejected *)
| Thrown (who : nat).      (* an exception raised by the callback [who] *)

(** What the registry does to the outside world. *)
Inductive Event : Type :=
| Warn                                       (* console.warn(...) *)
| Handler (e : BackHandlerEntry)             (* entry.handler() *)
| Fallback (f : nat)                         (* options.fallback() *)
| OnPush (f : nat) (e : BackHandlerEntry)    (* options.onPush(entry) *)
| OnRemove (f : nat) (e : BackHandlerEntry)  (* options.onRemove(entry) *)
| Bind (f : nat)                             (* options.bind(() => onBackPress()) *)
| OnUnmount.                                 (* app.onUnmount(() => destroy()) *)

(* ------------------------------------------------------------------------- *)
(** * The monad of methods *)

Inductive Result (A : Type) : Type :=
| Ok (a : A)
| Throw (e : Error)
| Hang.
Arguments Ok {A} _.
Arguments Throw {A} _.
Arguments Hang {A}.

Definition M (S A : Type) : Type := S -> Result A * S * list Event.

Definition ret {S A} (a : A) : M S A := fun s => (Ok a, s, []).

Definition bind {S A B} (m : M S A) (k : A -> M S B) : M S B :=
  fun s =>
    match m s with
    | (Ok a, s1, ev1) =>
        match k a s1 with
        | (r, s2, ev2) => (r, s2, ev1 ++ ev2)
        end
    | (Throw e, s1, ev1) => (Throw e, s1, ev1)
    | (Hang, s1, ev1) => (Hang, s1, ev1)
    end.

Notation "'let*' x ':=' m 'in' k" := (bind m (fun x => k))
  (at level 10, x name, m at level 100, k at level 200).
Notation "m '>>' k" := (bind m (fun _ => k))
  (at level 90, right associativity).

Definition get {S} : M S S := fun s => (Ok s, s, []).
Definition put {S} (s' : S) : M S unit := fun _ => (Ok tt, s', []).
Definition throw {S A} (e : Error) : M S A := fun s => (Throw e, s, []).
Definition hang {S A} : M S A := fun s => (Hang, s, []).
Definition emit {S} (ev : Event) : M S unit := fun s => (Ok tt, s, [ev]).

(** [try { m } catch { h }]: a hang is not an exception. *)
Definition try_catch {S A} (m : M S A) (h : Error -> M S A) : M S A :=
  fun s =>
    match m s with
    | (Throw e, s1, ev1) =>
        match h e s1 with
        | (r, s2, ev2) => (r, s2, ev1 ++ ev2)
        end
    | other => other
    end.

(** Calling an application callback: the call is observed, then it returns or
    throws. *)
Definition call {S A} (ev : nat -> Event) (f : Fn A) (a : A) : M S unit :=
  emit (ev (fn_ref f)) >>
  if fn_throws f a then throw (Thrown (fn_ref f)) else ret tt.

(** [observer?.(entry)] *)
Definition call_opt {S A} (ev : nat -> Event) (f : option (Fn A)) (a : A)
  : M S unit :=
  match f with
  | Some f => call ev f a
  | None => ret tt
  end.

(** The state of the promise an [async] method returns. *)
Inductive Promise : Type :=
| Fulfilled
| Rejected (e : Error)
| Pending.

Definition async {S} (body : M S unit) : S -> Promise * S * list Event :=
  fun s =>
    match body s with
    | (Ok _, s', ev) => (Fulfilled, s', ev)
    | (Throw e, s', ev) => (Rejected e, s', ev)
    | (Hang, s', ev) => (Pending, s', ev)
    end.

(* ------------------------------------------------------------------------- *)
(** * [class BackHandler] *)

(** [this.stack.indexOf(entry)]: the first index holding the same object;
    [None] stands for [-1]. *)
Definition indexOf (entry : BackHandlerEntry) (l : list BackHandlerEntry)
  : option nat :=
  fst <$> list_find (λ x, ref x = ref entry) l.

(** A call of [push] or [remove] made by some other party. *)
Inductive Call : Type :=
| CallPush (e : BackHandlerEntry)
| CallRemove (e : BackHandlerEntry).

Module BackHandler.

(** [static get options()] *)
Definition options : M Static BackHandlerOptions :=
  let* st := get in
  match _options st with
  | None => throw NotInitialized
  | Some o => ret o
  end.

Definition init (options : BackHandlerOptions) : M Static unit :=
  let* st := get in
  if isInitialized st then
    emit Warn
  else
    put {| stack := stack st; _options := Some options; isInitialized := true |}.

Definition destroy : M Static unit :=
  put {| stack := []; _options := None; isInitialized := false |}.

Definition push (entry : BackHandlerEntry) : M Static unit :=
  (let* st := get in
   put {| stack := stack st ++ [entry];
          _options := _options st; isInitialized := isInitialized st |}) >>
  let* o := options in
  call_opt (fun f => OnPush f entry) (onPush o) entry.

Definition remove (entry : BackHandlerEntry) : M Static unit :=
  let* st := get in
  match indexOf entry (stack st) with
  | Some index =>
      put {| stack := delete index (stack st);
             _options := _options st; isInitialized := isInitialized st |} >>
      let* o := options in
      call_opt (fun f => OnRemove f entry) (onRemove o) entry
  | None => ret tt
  end.

Definition run_call (c : Call) : M Static unit :=
  match c with
  | CallPush e => push e
  | CallRemove e => remove e
  end.

(** A sequence of [push]/[remove] calls made one after the other, each by
    its own caller: what one of them throws goes to that caller and does
    not stop the others. *)
Fixpoint run_calls (cs : list Call) : M Static unit :=
  match cs with
  | [] => ret tt
  | c :: cs => try_catch (run_call c) (fun _ => ret tt) >> run_calls cs
  end.

(** [await entry.handler()].  Between the call of the handler and the
    moment its result is available, control leaves [onBackPress]: [during]
    lists the registry calls made in that window (by the handler itself or
    by anyone else). *)
Definition await_handler (during : list Call) (entry : BackHandlerEntry)
  : M Static Value :=
  emit (Handler entry) >>
  let c := handler entry tt in
  run_calls during >>
  match c with
  | Returns v | Resolves v => ret v
  | ThrowsSync | Rejects => throw HandlerFailed
  | NeverSettles => hang
  end.

Definition onBackPress (during : list Call)
  : Static -> Promise * Static * list Event :=
  async (
    let* st := get in
    if bool_decide (length (stack st) ≠ 0) then
      match stack st !! (length (stack st) - 1) with
      | Some entry =>
          try_catch
            (let* result := await_handler during entry in
             if is_not_false result then remove entry else ret tt)
            (fun _ => ret tt (* reject means do not remove *))
      | None => ret tt
      end
    else
      let* o := options in
      call Fallback (fallback o) tt).

(** [install(app, options)], with [options.bind] as [bind]. *)
Definition install (options : BackHandlerOptions) (bind : Fn unit)
  : M Static unit :=
  let* st := get in
  if isInitialized st then
    ret tt
  else
    init options >>
    call Bind bind tt >>
    emit OnUnmount.

End BackHandler.

(* ------------------------------------------------------------------------- *)
(** * [useBackHandler] *)

(** What one call of [useBackHandler(showing, onHide)] closes over, next to
    the registry: the current value of the visibility source and the local
    variable [entry]. *)
Record Scope : Type := mkScope {
  showing : bool;
  entry : option BackHandlerEntry;
  registry : Static;
}.

(** Run a registry method on the registry of a scope. *)
Definition on_registry {A} (m : M Static A) : M Scope A :=
  fun w =>
    match m (registry w) with
    | (r, st', ev) =>
        (r, {| showing := showing w; entry := entry w; registry := st' |}, ev)
    end.

Definition set_entry (e : option BackHandlerEntry) : M Scope unit :=
  fun w =>
    (Ok tt, {| showing := showing w; entry := e; registry := registry w |}, []).

Module UseBackHandler.

Definition remove : M Scope unit :=
  let* w := get in
  match entry w with
  | Some e =>
      on_registry (BackHandler.remove e) >>
      set_entry None
  | None => ret tt
  end.

(** [entry = { handler: onHide }] allocates an object; [fresh] is its
    reference. *)
Definition push (onHide : unit -> Completion) (fresh : nat) : M Scope unit :=
  let e := {| ref := fresh; handler := onHide |} in
  set_entry (Some e) >>
  on_registry (BackHandler.push e).

(** The callback given to [onScopeDispose]: [toValue(showing) && remove()]. *)
Definition onScopeDispose : M Scope unit :=
  let* w := get in
  if showing w then remove else ret tt.

End UseBackHandler.

(* ------------------------------------------------------------------------- *)
(** * Reading traces *)

(** The entries whose handler was called, in order. *)
Definition handlers_invoked (evs : list Event) : list BackHandlerEntry :=
  omap (λ ev, match ev with Handler e => Some e | _ => None end) evs.

(** The [fallback] functions that were called, in order. *)
Definition fallback_calls (evs : list Event) : list nat :=
  omap (λ ev, match ev with Fallback f => Some f | _ => None end) evs.

(** The entries pushed by a sequence of calls, in order. *)
Definition pushed (cs : list Call) : list BackHandlerEntry :=
  omap (λ c, match c with CallPush e => Some e | CallRemove _ => None end) cs.

Definition is_observer_event (ev : Event) : Prop :=
  match ev with
  | OnPush _ _ | OnRemove _ _ => True
  | _ => False
  end.

(** [isInitialized] and [_options] are set and cleared together. *)
Definition consistent (st : Static) : Prop :=
  isInitialized st = true ↔ is_Some (_options st).

Definition with_stack (st : Static) (l : list BackHandlerEntry) : Static :=
  {| stack := l; _options := _options st; isInitialized := isInitialized st |}.

(** The result and the trace of [observer?.(entry)] when [_options] is [cfg]
    and the observer is selected by [sel]. *)
Definition notified (cfg : option BackHandlerOptions)
    (sel : BackHandlerOptions -> option (Fn BackHandlerEntry))
    (ev : nat -> BackHandlerEntry -> Event) (entry : BackHandlerEntry)
  : Result unit * list Event :=
  match cfg with
  | None => (Throw NotInitialized, [])
  | Some o =>
      match sel o with
      | None => (Ok tt, [])
      | Some f =>
          (if fn_throws f entry then Throw (Thrown (fn_ref f)) else Ok tt,
           [ev (fn_ref f) entry])
      end
  end.

(** A handler whose result becomes available, with value [v]. *)
Definition settles_with (e : BackHandlerEntry) (v : Value) : Prop :=
  handler e tt = Returns v ∨ handler e tt = Resolves v.

(** A handler that throws, or whose promise is rejected. *)
Definition fails (e : BackHandlerEntry) : Prop :=
  handler e tt = ThrowsSync ∨ handler e tt = Rejects.

(** The states the registry can be in: from the initial values of the static
    fields, by calls of its methods. *)
Inductive Method : Type :=
| MInit (o : BackHandlerOptions)
| MInstall (o : BackHandlerOptions) (bind : Fn unit)
| MDestroy
| MPush (e : BackHandlerEntry)
| MRemove (e : BackHandlerEntry)
| MBackPress (during : list Call).

Definition after (m : Method) (st : Static) : Static :=
  match m with
  | MInit o => snd (fst (BackHandler.init o st))
  | MInstall o b => snd (fst (BackHandler.install o b st))
  | MDestroy => snd (fst (BackHandler.destroy st))
  | MPush e => snd (fst (BackHandler.push e st))
  | MRemove e => snd (fst (BackHandler.remove e st))
  | MBackPress during => snd (fst (BackHandler.onBackPress during st))
  end.

Inductive reachable : Static → Prop :=
| reachable_initial : reachable initial
| reachable_after m st : reachable st → reachable (after m st).

(** What the specification says of a set-up call [m] made on an initialized
    registry [st]: it returns, it has warned, and [st] is as it was. *)
Definition warns_and_preserves (m : M Static unit) (st : Static) : Prop :=
  ∃ evs, m st = (Ok tt, st, evs) ∧ Warn ∈ evs.

(* ------------------------------------------------------------------------- *)
(** * Sample values for concrete runs *)

(** A callback that returns, and one that throws. *)
Definition quiet {A} (n : nat) : Fn A := mkFn n (fun _ => false).
Definition failing {A} (n : nat) : Fn A := mkFn n (fun _ => true).

Definition entryA : BackHandlerEntry :=
  {| ref := 1; handler := fun _ => Returns VUndefined |}.
Definition entryB : BackHandlerEntry :=
  {| ref := 2; handler := fun _ => Resolves (VBool true) |}.
Definition entryKeep : BackHandlerEntry :=
  {| ref := 3; handler := fun _ => Returns (VBool false) |}.
Definition entryReject : BackHandlerEntry :=
  {| ref := 4; handler := fun _ => Rejects |}.

Definition sample_options : BackHandlerOptions :=
  {| fallback := quiet 10; onPush := Some (quiet 11); onRemove := Some (quiet 12) |}.
Definition other_options : BackHandlerOptions :=
  {| fallback := quiet 20; onPush := None; onRemove := None |}.
Definition throwing_options : BackHandlerOptions :=
  {| fallback := quiet 10; onPush := None; onRemove := Some (failing 13) |}.

(** The registry after the calls [m], from the initial state. *)
Definition state_of (m : M Static unit) : Static := snd (fst (m initial)).

Definition st_ready : Static := state_of (BackHandler.init sample_options).
Definition st_AB : Static :=
  state_of (BackHandler.init sample_options >>
            BackHandler.push entryA >> BackHandler.push entryB).
Definition st_keep : Static :=
  state_of (BackHandler.init sample_options >>
            BackHandler.push entryA >> BackHandler.push entryKeep).
Definition st_throwing : Static :=
  state_of (BackHandler.init throwing_options >> BackHandler.push entryA).

(** A binding whose region is visible ([vis]), right after its [push()]. *)
Definition scope_pushed (vis : bool) : Scope :=
  snd (fst (UseBackHandler.push (fun _ => Returns VUndefined) 5
              {| showing := vis; entry := None; registry := st_ready |})).

(** What the specification says of an observer [f] that throws during a
    dispatch whose promise ends as [p]: the exception reaches the caller. *)
Definition surfaces (p : Promise) (f : Fn BackHandlerEntry) : Prop :=
  p = Rejected (Thrown (fn_ref f)).

(* ------------------------------------------------------------------------- *)
(** * More ways to read a trace, and repeated signals *)

(** The entries given to [onPush], in order. *)
Definition onPush_trace (evs : list Event) : list BackHandlerEntry :=
  omap (λ ev, match ev with OnPush _ e => Some e | _ => None end) evs.

(** The entries given to [onRemove], in order. *)
Definition onRemove_trace (evs : list Event) : list BackHandlerEntry :=
  omap (λ ev, match ev with OnRemove _ e => Some e | _ => None end) evs.

(** The [bind] functions that were called, in order. *)
Definition binds (evs : list Event) : list nat :=
  omap (λ ev, match ev with Bind f => Some f | _ => None end) evs.

(** A handler whose result arrives and is not [false]. *)
Definition accepts (e : BackHandlerEntry) : Prop :=
  ∃ v, settles_with e v ∧ v ≠ VBool false.

(** A handler whose result is [false], or that fails. *)
Definition refuses (e : BackHandlerEntry) : Prop :=
  settles_with e (VBool false) ∨ fails e.

(** [n] back signals, one after the other, with no other call on the
    registry in between. *)
Fixpoint presses (n : nat) (st : Static) : Static * list Event :=
  match n with
  | 0 => (st, [])
  | S n =>
      let '(_, st1, ev1) := BackHandler.onBackPress [] st in
      let '(st2, ev2) := presses n st1 in
      (st2, ev1 ++ ev2)
  end.

(** A scope whose binding owns nothing yet. *)
Definition scope_of (vis : bool) (st : Static) : Scope :=
  {| showing := vis; entry := None; registry := st |}.

(* ------------------------------------------------------------------------- *)
(** * Basic facts *)

Ltac run :=
  unfold BackHandler.push, BackHandler.remove, BackHandler.options,
    BackHandler.init, BackHandler.destroy, BackHandler.install,
    call_opt, call, bind, get, put, throw, hang, emit, ret, try_catch, async;
  simpl.

Lemma indexOf_Some entry l i :
  indexOf entry l = Some i ↔
  ∃ x, l !! i = Some x ∧ ref x = ref entry ∧
       ∀ j y, l !! j = Some y → j < i → ref y ≠ ref entry.
Proof.
  unfold indexOf. rewrite fmap_Some. split.
  - intros [[i' x] [Hfind ->]]. apply list_find_Some in Hfind. eauto.
  - intros (x & Hx). exists (i, x). split; [|done].
    by apply list_find_Some.
Qed.

Lemma indexOf_None entry l :
  indexOf entry l = None ↔ ∀ x, x ∈ l → ref x ≠ ref entry.
Proof.
  unfold indexOf. rewrite fmap_None, list_find_None, Forall_forall. done.
Qed.

(** The first occurrence, seen as a split of the list. *)
Lemma indexOf_split entry l1 x l2 :
  ref x = ref entry → (∀ y, y ∈ l1 → ref y ≠ ref entry) →
  indexOf entry (l1 ++ x :: l2) = Some (length l1).
Proof.
  intros Hx Hl1. apply indexOf_Some. exists x. split_and!.
  - by rewrite list_lookup_middle.
  - done.
  - intros j y Hj Hlt. rewrite lookup_app_l in Hj by done.
    apply Hl1. by eapply list_elem_of_lookup_2.
Qed.

Lemma indexOf_present entry l x :
  x ∈ l → ref x = ref entry → is_Some (indexOf entry l).
Proof.
  intros Hin Hx. destruct (indexOf entry l) eqn:E; [by eexists|].
  rewrite indexOf_None in E. by destruct (E x Hin).
Qed.

Lemma indexOf_inv entry l i :
  indexOf entry l = Some i →
  ∃ l1 x l2, l = l1 ++ x :: l2 ∧ length l1 = i ∧ ref x = ref entry ∧
             (∀ y, y ∈ l1 → ref y ≠ ref entry) ∧ delete i l = l1 ++ l2.
Proof.
  intros (x & Hx & Hr & Hfirst)%indexOf_Some.
  exists (take i l), x, (drop (S i) l).
  pose proof (lookup_lt_Some _ _ _ Hx) as Hlt.
  split_and!.
  - by rewrite take_drop_middle.
  - rewrite length_take. lia.
  - done.
  - intros y [j Hj]%list_elem_of_lookup_1.
    pose proof (lookup_lt_Some _ _ _ Hj) as Hj'. rewrite length_take in Hj'.
    rewrite lookup_take_lt in Hj by lia. apply (Hfirst j y Hj). lia.
  - apply delete_take_drop.
Qed.

Lemma push_run entry st :
  BackHandler.push entry st =
  (fst (notified (_options st) onPush OnPush entry),
   with_stack st (stack st ++ [entry]),
   snd (notified (_options st) onPush OnPush entry)).
Proof.
  run. unfold notified, with_stack.
  destruct (_options st) as [o|]; simpl; [|done].
  destruct (onPush o) as [f|]; simpl; [|done].
  by destruct (fn_throws f entry).
Qed.

Lemma remove_run_present entry st i :
  indexOf entry (stack st) = Some i →
  BackHandler.remove entry st =
  (fst (notified (_options st) onRemove OnRemove entry),
   with_stack st (delete i (stack st)),
   snd (notified (_options st) onRemove OnRemove entry)).
Proof.
  intros Hi. run. rewrite Hi. simpl. unfold notified, with_stack.
  destruct (_options st) as [o|]; simpl; [|done].
  destruct (onRemove o) as [f|]; simpl; [|done].
  by destruct (fn_throws f entry).
Qed.

Lemma remove_run_absent entry st :
  indexOf entry (stack st) = None →
  BackHandler.remove entry st = (Ok tt, st, []).
Proof. intros Hi. run. by rewrite Hi. Qed.

Lemma notified_events cfg sel ev entry :
  (∀ f e, is_observer_event (ev f e)) →
  Forall is_observer_event (snd (notified cfg sel ev entry)).
Proof.
  intros Hev. unfold notified.
  destruct cfg as [o|]; simpl; [|constructor].
  destruct (sel o); simpl; repeat constructor. apply Hev.
Qed.

Lemma notified_never_hangs cfg sel ev entry :
  fst (notified cfg sel ev entry) ≠ Hang.
Proof.
  unfold notified. destruct cfg as [o|]; [destruct (sel o) as [f|]|];
    simpl; try destruct (fn_throws f entry); done.
Qed.

(** A synchronous call whose exception is caught and dropped. *)
Lemma caught_run {S} (r : Result unit) (s : S) (evs : list Event) :
  r ≠ Hang →
  try_catch (fun _ => (r, s, evs)) (fun _ => ret tt) s = (Ok tt, s, evs).
Proof.
  intros Hr. unfold try_catch, ret. destruct r as [[]|e|]; [done| |done].
  by rewrite app_nil_r.
Qed.

(** One interleaved call: it cannot hang, its exception (if any) stays with
    its caller, it only talks to the observers, and it leaves the
    configuration alone. *)
Lemma run_call_caught c st :
  ∃ st' evs,
    try_catch (BackHandler.run_call c) (fun _ => ret tt) st = (Ok tt, st', evs) ∧
    Forall is_observer_event evs ∧
    _options st' = _options st ∧ isInitialized st' = isInitialized st ∧
    stack st' `sublist_of` stack st ++ pushed [c].
Proof.
  destruct c as [e|e].
  - exists (with_stack st (stack st ++ [e])),
      (snd (notified (_options st) onPush OnPush e)).
    split_and!; [|by apply notified_events|done..].
    unfold try_catch, ret; simpl. rewrite push_run.
    pose proof (notified_never_hangs (_options st) onPush OnPush e).
    destruct (notified (_options st) onPush OnPush e) as [[[]|err|] evs];
      simpl in *; [done| |done]. by rewrite app_nil_r.
  - destruct (indexOf e (stack st)) as [i|] eqn:Hi.
    + exists (with_stack st (delete i (stack st))),
        (snd (notified (_options st) onRemove OnRemove e)).
      split_and!; [|by apply notified_events|done..|].
      * unfold try_catch, ret; simpl. rewrite (remove_run_present _ _ _ Hi).
        pose proof (notified_never_hangs (_options st) onRemove OnRemove e).
        destruct (notified (_options st) onRemove OnRemove e) as [[[]|err|] evs];
          simpl in *; [done| |done]. by rewrite app_nil_r.
      * simpl. rewrite app_nil_r. apply sublist_delete.
    + exists st, []. unfold try_catch; simpl.
      rewrite (remove_run_absent _ _ Hi). rewrite app_nil_r.
      split_and!; auto.
Qed.

Lemma run_calls_spec cs st :
  ∃ st' evs,
    BackHandler.run_calls cs st = (Ok tt, st', evs) ∧
    Forall is_observer_event evs ∧
    _options st' = _options st ∧ isInitialized st' = isInitialized st ∧
    stack st' `sublist_of` stack st ++ pushed cs.
Proof.
  revert st. induction cs as [|c cs IH]; intros st.
  - exists st, []. simpl. rewrite app_nil_r. split_and!; auto.
  - destruct (run_call_caught c st) as (st1 & ev1 & Hc & Hev1 & Ho1 & Hi1 & Hs1).
    destruct (IH st1) as (st2 & ev2 & Hcs & Hev2 & Ho2 & Hi2 & Hs2).
    exists st2, (ev1 ++ ev2). split_and!.
    + simpl. unfold bind at 1. by rewrite Hc, Hcs.
    + by apply Forall_app.
    + congruence.
    + congruence.
    + replace (pushed (c :: cs)) with (pushed [c] ++ pushed cs)
        by (destruct c; done).
      etrans; [exact Hs2|].
      rewrite (assoc_L (++)). by apply sublist_app.
Qed.

Lemma run_calls_nil st : BackHandler.run_calls [] st = (Ok tt, st, []).
Proof. done. Qed.

Lemma observer_events_no_handler evs :
  Forall is_observer_event evs → handlers_invoked evs = [].
Proof.
  induction 1 as [|ev evs Hev _ IH]; [done|].
  unfold handlers_invoked in *. destruct ev; simpl in *; done.
Qed.

Lemma observer_events_no_fallback evs :
  Forall is_observer_event evs → fallback_calls evs = [].
Proof.
  induction 1 as [|ev evs Hev _ IH]; [done|].
  unfold fallback_calls in *. destruct ev; simpl in *; done.
Qed.

Lemma remove_events entry st :
  Forall is_observer_event (snd (BackHandler.remove entry st)).
Proof.
  destruct (indexOf entry (stack st)) as [i|] eqn:Hi.
  - rewrite (remove_run_present _ _ _ Hi). simpl. by apply notified_events.
  - rewrite (remove_run_absent _ _ Hi). constructor.
Qed.

Lemma remove_never_hangs entry st :
  fst (fst (BackHandler.remove entry st)) ≠ Hang.
Proof.
  destruct (indexOf entry (stack st)) as [i|] eqn:Hi.
  - rewrite (remove_run_present _ _ _ Hi). simpl. apply notified_never_hangs.
  - by rewrite (remove_run_absent _ _ Hi).
Qed.

(** The top of a non-empty stack, as [onBackPress] reads it. *)
Lemma top_lookup (l : list BackHandlerEntry) :
  l !! (length l - 1) = last l.
Proof. rewrite last_lookup. f_equal. lia. Qed.

Lemma last_nonempty (l : list BackHandlerEntry) :
  l ≠ [] → ∃ top, last l = Some top.
Proof.
  intros Hl. destruct (last l) eqn:E; [by eexists|].
  by apply last_None in E.
Qed.

Lemma last_length (l : list BackHandlerEntry) top :
  last l = Some top → bool_decide (length l ≠ 0) = true.
Proof.
  intros Hl. apply bool_decide_eq_true. by destruct l.
Qed.

Section dispatch.
Context (st st1 : Static) (during : list Call) (ev1 : list Event).
Context (top : BackHandlerEntry).
Hypothesis Htop : last (stack st) = Some top.
Hypothesis Hduring : BackHandler.run_calls during st = (Ok tt, st1, ev1).

Local Ltac enter :=
  unfold BackHandler.onBackPress, async, bind at 1, get; simpl;
  rewrite (last_length _ _ Htop), top_lookup, Htop;
  unfold try_catch, BackHandler.await_handler, bind, emit; simpl;
  rewrite Hduring.

(** The handler's value is not [false]: [this.remove(entry)] runs on the
    registry as it is when the value arrives, and whatever it throws is
    caught. *)
Lemma onBackPress_accepted v :
  settles_with top v → is_not_false v = true →
  BackHandler.onBackPress during st =
  (Fulfilled, snd (fst (BackHandler.remove top st1)),
   Handler top :: ev1 ++ snd (BackHandler.remove top st1)).
Proof using Htop Hduring.
  intros Hv Hnf. enter.
  pose proof (remove_never_hangs top st1) as Hh.
  destruct Hv as [-> | ->]; unfold ret; simpl; rewrite Hnf;
    destruct (BackHandler.remove top st1) as [[[[]|err|] st2] ev2];
    simpl in *; rewrite ?app_nil_r; done.
Qed.

(** The handler's value is [false]: nothing more happens. *)
Lemma onBackPress_declined :
  settles_with top (VBool false) →
  BackHandler.onBackPress during st = (Fulfilled, st1, Handler top :: ev1).
Proof using Htop Hduring.
  intros Hv. enter.
  destruct Hv as [-> | ->]; unfold ret; simpl; by rewrite ?app_nil_r.
Qed.

(** The handler fails: the exception is caught, nothing more happens. *)
Lemma onBackPress_failed :
  fails top →
  BackHandler.onBackPress during st = (Fulfilled, st1, Handler top :: ev1).
Proof using Htop Hduring.
  intros Hv. enter.
  destruct Hv as [-> | ->]; unfold ret, throw; simpl; by rewrite ?app_nil_r.
Qed.

(** The handler's promise never settles: [onBackPress] stays pending. *)
Lemma onBackPress_pending :
  handler top tt = NeverSettles →
  BackHandler.onBackPress during st = (Pending, st1, Handler top :: ev1).
Proof using Htop Hduring.
  intros Hv. enter. rewrite Hv. unfold hang; simpl. by rewrite ?app_nil_r.
Qed.

(** Whatever the handler does, the trace of a dispatch on a non-empty stack
    is the call of the top handler, then observer calls. *)
Lemma onBackPress_trace :
  ∃ evs, snd (BackHandler.onBackPress during st) = Handler top :: evs ∧
         Forall is_observer_event evs.
Proof using Htop Hduring.
  assert (Hev : Forall is_observer_event ev1).
  { destruct (run_calls_spec during st) as (st1' & ev1' & Hr & Hev & _).
    congruence. }
  destruct (handler top tt) as [v| |v| |] eqn:Hc.
  - destruct (is_not_false v) eqn:Hnf.
    + rewrite (onBackPress_accepted v); [|by left|done]. eexists; split; [done|].
      apply Forall_app; split; [done|apply remove_events].
    + destruct v as [|[]]; try done.
      rewrite onBackPress_declined; [|by left]. by eexists.
  - rewrite onBackPress_failed; [|by left]. by eexists.
  - destruct (is_not_false v) eqn:Hnf.
    + rewrite (onBackPress_accepted v); [|by right|done]. eexists; split; [done|].
      apply Forall_app; split; [done|apply remove_events].
    + destruct v as [|[]]; try done.
      rewrite onBackPress_declined; [|by right]. by eexists.
  - rewrite onBackPress_failed; [|by right]. by eexists.
  - rewrite onBackPress_pending; [|done]. by eexists.
Qed.
End dispatch.

Lemma onBackPress_empty st during :
  stack st = [] →
  BackHandler.onBackPress during st =
  match _options st with
  | None => (Rejected NotInitialized, st, [])
  | Some o =>
      (if fn_throws (fallback o) tt
       then Rejected (Thrown (fn_ref (fallback o))) else Fulfilled,
       st, [Fallback (fn_ref (fallback o))])
  end.
Proof.
  intros Hs. unfold BackHandler.onBackPress. run. rewrite Hs. simpl.
  destruct (_options st) as [o|]; simpl; [|done].
  by destruct (fn_throws (fallback o) tt).
Qed.

Lemma is_not_false_true v : v ≠ VBool false → is_not_false v = true.
Proof. by destruct v as [|[]]. Qed.

Lemma last_split (l : list BackHandlerEntry) top :
  last l = Some top → ∃ l', l = l' ++ [top].
Proof.
  intros Hl. destruct l as [|x l _] using rev_ind; [done|].
  rewrite last_snoc in Hl. simplify_eq. by eexists.
Qed.

(* ------------------------------------------------------------------------- *)
(** * Dispatch *)

(** C1. A dispatch on a non-empty stack calls the handler of the entry at
    index [length - 1] and no other handler.  When that handler's result is
    available and is not [false], the dispatch goes on exactly as
    [remove(entry)] does on the registry of that moment and is fulfilled; when
    nothing else touched the registry in between, one slot of the entry is
    spliced out and a configured [onRemove] is called once, with that entry.
    With [A] then [top] on top of the stack ([top] occurring nowhere else),
    the stack afterwards ends with [A]. *)
Theorem onBackPress_top_handler_then_remove
    (st : Static) (during : list Call) :
  stack st ≠ [] →
  ∃ top,
    stack st !! (length (stack st) - 1) = Some top ∧
    handlers_invoked (snd (BackHandler.onBackPress during st)) = [top] ∧
    (∀ v, settles_with top v → v ≠ VBool false →
      (∃ st1 ev1,
         BackHandler.run_calls during st = (Ok tt, st1, ev1) ∧
         BackHandler.onBackPress during st =
         (Fulfilled, snd (fst (BackHandler.remove top st1)),
          Handler top :: ev1 ++ snd (BackHandler.remove top st1))) ∧
      (∃ i,
         indexOf top (stack st) = Some i ∧
         fst (BackHandler.onBackPress [] st) =
           (Fulfilled, with_stack st (delete i (stack st))) ∧
         length (stack (snd (fst (BackHandler.onBackPress [] st)))) + 1 =
           length (stack st) ∧
         ∀ o f, _options st = Some o → onRemove o = Some f →
           snd (BackHandler.onBackPress [] st) =
             [Handler top; OnRemove (fn_ref f) top]) ∧
      (∀ l A, stack st = l ++ [A; top] →
         ref A ≠ ref top → (∀ y, y ∈ l → ref y ≠ ref top) →
         stack (snd (fst (BackHandler.onBackPress [] st))) = l ++ [A])).
Proof.
  intros Hne. destruct (last_nonempty _ Hne) as [top Htop].
  exists top. split; [by rewrite top_lookup|]. split.
  - destruct (run_calls_spec during st) as (st1 & ev1 & Hr & _).
    destruct (onBackPress_trace st st1 during ev1 top Htop Hr)
      as (evs & -> & Hevs).
    unfold handlers_invoked; simpl. fold (handlers_invoked evs).
    by rewrite observer_events_no_handler.
  - intros v Hv Hnf%is_not_false_true. split_and!.
    + destruct (run_calls_spec during st) as (st1 & ev1 & Hr & _).
      exists st1, ev1. split; [done|]. by eapply onBackPress_accepted.
    + destruct (last_split _ _ Htop) as [l' Hl'].
      destruct (indexOf_present top (stack st) top) as [i Hi]; [|done|].
      { rewrite Hl'. apply elem_of_app. right. by apply list_elem_of_singleton. }
      exists i. split; [done|].
      rewrite (onBackPress_accepted st st [] [] top Htop (run_calls_nil st) v Hv Hnf).
      rewrite (remove_run_present _ _ _ Hi). simpl. split_and!.
      * done.
      * rewrite length_delete; [|by apply indexOf_Some in Hi as (x & ?%mk_is_Some & _)].
        apply indexOf_Some in Hi as (x & ?%lookup_lt_Some & _). lia.
      * intros o f -> Hf. simpl. by rewrite Hf.
    + intros l A Hst HA Hl.
      rewrite (onBackPress_accepted st st [] [] top Htop (run_calls_nil st) v Hv Hnf).
      assert (indexOf top (stack st) = Some (length (l ++ [A]))) as Hi.
      { rewrite Hst. replace (l ++ [A; top]) with ((l ++ [A]) ++ top :: [])
          by (by rewrite <- (assoc_L (++))).
        apply indexOf_split; [done|]. intros y [Hy|Hy]%elem_of_app; [by apply Hl|].
        apply list_elem_of_singleton in Hy. by subst. }
      rewrite (remove_run_present _ _ _ Hi). simpl.
      rewrite Hst. replace (l ++ [A; top]) with ((l ++ [A]) ++ top :: [])
        by (by rewrite <- (assoc_L (++))).
      rewrite delete_middle. by rewrite app_nil_r.
Qed.

(** C2. A dispatch on a non-empty stack whose top handler yields [false], or
    throws or is rejected, changes nothing itself: the registry is what the
    calls made meanwhile left, [fallback] is not called and the returned
    promise is fulfilled.  With no such calls the registry is unchanged. *)
Theorem onBackPress_false_or_failure_keeps_entry
    (st : Static) (during : list Call) (top : BackHandlerEntry) :
  stack st !! (length (stack st) - 1) = Some top →
  settles_with top (VBool false) ∨ fails top →
  (∃ st1 ev1,
     BackHandler.run_calls during st = (Ok tt, st1, ev1) ∧
     BackHandler.onBackPress during st = (Fulfilled, st1, Handler top :: ev1) ∧
     fallback_calls (Handler top :: ev1) = []) ∧
  BackHandler.onBackPress [] st = (Fulfilled, st, [Handler top]).
Proof.
  rewrite top_lookup. intros Htop Hv. split.
  - destruct (run_calls_spec during st) as (st1 & ev1 & Hr & Hev & _).
    exists st1, ev1. split_and!; [done| |].
    + destruct Hv; [by eapply onBackPress_declined|by eapply onBackPress_failed].
    + unfold fallback_calls; simpl. by apply observer_events_no_fallback.
  - destruct Hv.
    + by eapply onBackPress_declined; [|apply run_calls_nil|].
    + by eapply onBackPress_failed; [|apply run_calls_nil|].
Qed.

(** C3. A dispatch on an empty stack of an initialized registry calls
    [fallback] once, does nothing else and leaves the registry unchanged; a
    dispatch on a non-empty stack never calls [fallback]. *)
Theorem onBackPress_fallback_only_when_empty
    (st : Static) (during : list Call) :
  (stack st = [] → ∀ o, _options st = Some o →
     snd (BackHandler.onBackPress during st) = [Fallback (fn_ref (fallback o))] ∧
     fallback_calls (snd (BackHandler.onBackPress during st)) =
       [fn_ref (fallback o)] ∧
     snd (fst (BackHandler.onBackPress during st)) = st) ∧
  (stack st ≠ [] →
     fallback_calls (snd (BackHandler.onBackPress during st)) = []).
Proof.
  split.
  - intros Hs o Ho. rewrite (onBackPress_empty _ _ Hs), Ho. done.
  - intros Hne. destruct (last_nonempty _ Hne) as [top Htop].
    destruct (run_calls_spec during st) as (st1 & ev1 & Hr & _).
    destruct (onBackPress_trace st st1 during ev1 top Htop Hr)
      as (evs & -> & Hevs).
    unfold fallback_calls; simpl. by apply observer_events_no_fallback.
Qed.

(* ------------------------------------------------------------------------- *)
(** * [push] and [remove] *)

Lemma first_occurrence_or_absent entry (l : list BackHandlerEntry) :
  (∀ x, x ∈ l → ref x ≠ ref entry) ∨
  (∃ l1 x l2, l = l1 ++ x :: l2 ∧ ref x = ref entry ∧
              ∀ y, y ∈ l1 → ref y ≠ ref entry).
Proof.
  destruct (indexOf entry l) as [i|] eqn:Hi.
  - right. apply indexOf_inv in Hi as (l1 & x & l2 & ? & _ & ? & ? & _).
    by exists l1, x, l2.
  - left. by apply indexOf_None.
Qed.

Lemma remove_first_occurrence entry st l1 x l2 :
  stack st = l1 ++ x :: l2 → ref x = ref entry →
  (∀ y, y ∈ l1 → ref y ≠ ref entry) →
  BackHandler.remove entry st =
  (fst (notified (_options st) onRemove OnRemove entry),
   with_stack st (l1 ++ l2),
   snd (notified (_options st) onRemove OnRemove entry)).
Proof.
  intros Hst Hx Hl1.
  rewrite (remove_run_present entry st (length l1)).
  - by rewrite Hst, delete_middle.
  - rewrite Hst. by apply indexOf_split.
Qed.

(** C4. [remove(entry)] on a stack that does not hold the entry does nothing
    at all: no change, no observer call, no error.  On a stack that holds it,
    the first slot holding that object, and only that slot, is taken out, and
    [onRemove] (when the registry is initialized and has one) is called once,
    with [entry].  Every stack is in one of the two cases. *)
Theorem remove_first_match_once (st : Static) (entry : BackHandlerEntry) :
  ((∀ x, x ∈ stack st → ref x ≠ ref entry) →
     BackHandler.remove entry st = (Ok tt, st, [])) ∧
  (∀ l1 x l2,
     stack st = l1 ++ x :: l2 → ref x = ref entry →
     (∀ y, y ∈ l1 → ref y ≠ ref entry) →
     snd (fst (BackHandler.remove entry st)) = with_stack st (l1 ++ l2) ∧
     length (stack (snd (fst (BackHandler.remove entry st)))) + 1 =
       length (stack st) ∧
     match _options st with
     | Some o =>
         match onRemove o with
         | Some f =>
             snd (BackHandler.remove entry st) = [OnRemove (fn_ref f) entry] ∧
             fst (fst (BackHandler.remove entry st)) =
               (if fn_throws f entry then Throw (Thrown (fn_ref f)) else Ok tt)
         | None =>
             snd (BackHandler.remove entry st) = [] ∧
             fst (fst (BackHandler.remove entry st)) = Ok tt
         end
     | None =>
         snd (BackHandler.remove entry st) = [] ∧
         fst (fst (BackHandler.remove entry st)) = Throw NotInitialized
     end) ∧
  ((∀ x, x ∈ stack st → ref x ≠ ref entry) ∨
   (∃ l1 x l2, stack st = l1 ++ x :: l2 ∧ ref x = ref entry ∧
               ∀ y, y ∈ l1 → ref y ≠ ref entry)).
Proof.
  split_and!.
  - intros Habs. apply remove_run_absent. by apply indexOf_None.
  - intros l1 x l2 Hst Hx Hl1.
    rewrite (remove_first_occurrence entry st l1 x l2 Hst Hx Hl1). simpl.
    split_and!; [done| |].
    + rewrite Hst, !length_app. simpl. lia.
    + unfold notified. destruct (_options st) as [o|]; [|done].
      by destruct (onRemove o).
  - apply first_occurrence_or_absent.
Qed.

(** C5. After any sequence of [push] and [remove] calls the stack is a
    subsequence of the starting stack followed by the pushed entries in the
    order of their pushes: the entries still there are in insertion order.
    Removing an entry from the middle leaves the slots before and after it as
    they were.  [push] appends without looking at the stack, so pushing an
    entry that is already there adds a second slot for it. *)
Theorem push_remove_keep_insertion_order (st : Static) (cs : list Call) :
  stack (snd (fst (BackHandler.run_calls cs st)))
    `sublist_of` stack st ++ pushed cs ∧
  (∀ entry l1 x l2,
     stack st = l1 ++ x :: l2 → ref x = ref entry →
     (∀ y, y ∈ l1 → ref y ≠ ref entry) →
     stack (snd (fst (BackHandler.remove entry st))) = l1 ++ l2) ∧
  (∀ entry,
     stack (snd (fst (BackHandler.push entry st))) = stack st ++ [entry] ∧
     (entry ∈ stack st →
      ∃ i j, i < j ∧
        stack (snd (fst (BackHandler.push entry st))) !! i = Some entry ∧
        stack (snd (fst (BackHandler.push entry st))) !! j = Some entry)).
Proof.
  split_and!.
  - destruct (run_calls_spec cs st) as (st' & evs & -> & _ & _ & _ & Hsub).
    done.
  - intros entry l1 x l2 Hst Hx Hl1.
    by rewrite (remove_first_occurrence entry st l1 x l2 Hst Hx Hl1).
  - intros entry. rewrite push_run. simpl. split; [done|].
    intros [i Hi]%list_elem_of_lookup_1.
    exists i, (length (stack st)). split_and!.
    + by eapply lookup_lt_Some.
    + by apply lookup_app_l_Some.
    + by rewrite list_lookup_middle.
Qed.

(** C10. [push] on a registry that was never initialized throws the
    not-initialized error after the entry has been appended: the call fails
    and the stack is one slot longer. *)
Theorem push_uninitialized_throws_after_append
    (st : Static) (entry : BackHandlerEntry) :
  _options st = None →
  BackHandler.push entry st =
  (Throw NotInitialized, with_stack st (stack st ++ [entry]), []).
Proof. intros Ho. rewrite push_run, Ho. done. Qed.

(* ------------------------------------------------------------------------- *)
(** * Lifecycle *)

Lemma init_run options st :
  BackHandler.init options st =
  if isInitialized st then (Ok tt, st, [Warn])
  else (Ok tt, {| stack := stack st; _options := Some options;
                  isInitialized := true |}, []).
Proof. run. by destruct (isInitialized st). Qed.

Lemma install_run options b st :
  BackHandler.install options b st =
  if isInitialized st then (Ok tt, st, [])
  else (if fn_throws b tt then Throw (Thrown (fn_ref b)) else Ok tt,
        {| stack := stack st; _options := Some options; isInitialized := true |},
        if fn_throws b tt then [Bind (fn_ref b)] else [Bind (fn_ref b); OnUnmount]).
Proof.
  run. destruct (isInitialized st) eqn:E; simpl; [done|].
  rewrite init_run, E. by destruct (fn_throws b tt).
Qed.

Lemma remove_keeps_configuration entry st :
  _options (snd (fst (BackHandler.remove entry st))) = _options st ∧
  isInitialized (snd (fst (BackHandler.remove entry st))) = isInitialized st.
Proof.
  destruct (indexOf entry (stack st)) as [i|] eqn:Hi.
  - by rewrite (remove_run_present _ _ _ Hi).
  - by rewrite (remove_run_absent _ _ Hi).
Qed.

Lemma onBackPress_keeps_configuration during st :
  _options (snd (fst (BackHandler.onBackPress during st))) = _options st ∧
  isInitialized (snd (fst (BackHandler.onBackPress during st))) =
    isInitialized st.
Proof.
  destruct (stack st) as [|x l] eqn:Hs.
  - rewrite (onBackPress_empty _ _ Hs).
    by destruct (_options st) as [o|] eqn:Ho; simpl; rewrite ?Ho.
  - destruct (last_nonempty (stack st)) as [top Htop]; [by rewrite Hs|].
    destruct (run_calls_spec during st) as (st1 & ev1 & Hr & _ & Ho & Hi & _).
    destruct (remove_keeps_configuration top st1) as [Ho' Hi'].
    destruct (handler top tt) as [v| |v| |] eqn:Hc.
    1,3: destruct (is_not_false v) eqn:Hnf;
      [ erewrite (onBackPress_accepted _ _ _ _ _ Htop Hr v); eauto;
        [simpl; split; congruence | by (left + right)]
      | destruct v as [|[]]; try done;
        erewrite (onBackPress_declined _ _ _ _ _ Htop Hr); eauto;
        by (left + right) ].
    1,2: erewrite (onBackPress_failed _ _ _ _ _ Htop Hr); eauto;
      by (left + right).
    erewrite (onBackPress_pending _ _ _ _ _ Htop Hr); eauto.
Qed.

Lemma after_consistent m st : consistent st → consistent (after m st).
Proof.
  unfold consistent. intros Hc. destruct m as [o|o b| |e|e|during]; simpl.
  - rewrite init_run. destruct (isInitialized st) eqn:E; simpl.
    + by rewrite E.
    + split; [by eexists|done].
  - rewrite install_run. destruct (isInitialized st) eqn:E; simpl.
    + by rewrite E.
    + split; [by eexists|done].
  - split; [done|]. by intros [? ?].
  - by rewrite push_run.
  - by destruct (remove_keeps_configuration e st) as [-> ->].
  - by destruct (onBackPress_keeps_configuration during st) as [-> ->].
Qed.

Lemma reachable_consistent st : reachable st → consistent st.
Proof.
  induction 1 as [|m st _ IH].
  - split; [done|]. by intros [? ?].
  - by apply after_consistent.
Qed.

(** C6 (as amended). On an initialized registry, [init] returns after a
    warning and [install] returns at once, without a warning and without
    calling [bind]; neither throws and neither changes any static field, so
    the options first given stay in force and a later dispatch on an empty
    stack calls the [fallback] of those. *)
Theorem init_install_when_initialized
    (st : Static) (options : BackHandlerOptions) (b : Fn unit) :
  isInitialized st = true →
  BackHandler.init options st = (Ok tt, st, [Warn]) ∧
  BackHandler.install options b st = (Ok tt, st, []) ∧
  warns_and_preserves (BackHandler.init options) st ∧
  (∀ o, _options st = Some o → stack st = [] →
     snd (BackHandler.onBackPress []
            (snd (fst (BackHandler.init options st)))) =
       [Fallback (fn_ref (fallback o))] ∧
     snd (BackHandler.onBackPress []
            (snd (fst (BackHandler.install options b st)))) =
       [Fallback (fn_ref (fallback o))]).
Proof.
  intros Hi. rewrite init_run, install_run, Hi. split_and!; try done.
  - exists [Warn]. rewrite init_run, Hi. split; [done|].
    by apply list_elem_of_singleton.
  - intros o Ho Hs. simpl. by rewrite (onBackPress_empty _ _ Hs), Ho.
Qed.

(** C7. Reading [options] while [_options] is [null] throws: so it does in
    the initial state, in every state reached with [isInitialized] false, and
    after [destroy].  [destroy] always returns and leaves the initial values
    in all three static fields; a second [destroy] changes nothing more. *)
Theorem options_guard_and_destroy (st : Static) :
  (_options st = None →
     BackHandler.options st = (Throw NotInitialized, st, [])) ∧
  BackHandler.options initial = (Throw NotInitialized, initial, []) ∧
  (reachable st → isInitialized st = false →
     BackHandler.options st = (Throw NotInitialized, st, [])) ∧
  BackHandler.destroy st =
    (Ok tt, {| stack := []; _options := None; isInitialized := false |}, []) ∧
  fst (fst (BackHandler.options (snd (fst (BackHandler.destroy st))))) =
    Throw NotInitialized ∧
  (BackHandler.destroy >> BackHandler.destroy) st = BackHandler.destroy st.
Proof.
  assert (∀ s, _options s = None →
               BackHandler.options s = (Throw NotInitialized, s, [])) as Hnone.
  { intros s Hs. run. by rewrite Hs. }
  split_and!; [by apply Hnone|done| |done..].
  intros Hr%reachable_consistent Hi. apply Hnone.
  destruct (_options st) as [o|] eqn:Ho; [|done].
  destruct Hr as [_ Hr]. rewrite Hr in Hi; [done|by eexists].
Qed.

(* ------------------------------------------------------------------------- *)
(** * The scoped binding *)

Lemma use_remove_run w e :
  entry w = Some e →
  UseBackHandler.remove w =
  match BackHandler.remove e (registry w) with
  | (Ok _, st', evs) =>
      (Ok tt, {| showing := showing w; entry := None; registry := st' |}, evs)
  | (r, st', evs) =>
      (r, {| showing := showing w; entry := Some e; registry := st' |}, evs)
  end.
Proof.
  intros He. unfold UseBackHandler.remove, on_registry, set_entry, bind, get.
  simpl. rewrite He.
  destruct (BackHandler.remove e (registry w)) as [[[[]|err|] st'] evs];
    simpl; by rewrite ?app_nil_r, ?He.
Qed.

Lemma use_remove_registry w e :
  entry w = Some e →
  registry (snd (fst (UseBackHandler.remove w))) =
    snd (fst (BackHandler.remove e (registry w))) ∧
  snd (UseBackHandler.remove w) = snd (BackHandler.remove e (registry w)).
Proof.
  intros He. rewrite (use_remove_run w e He).
  by destruct (BackHandler.remove e (registry w)) as [[[[]|err|] st'] evs].
Qed.

(** [push()] of the binding: the new object is owned and sits on top. *)
Lemma use_push_run onHide fresh w :
  let e := {| ref := fresh; handler := onHide |} in
  entry (snd (fst (UseBackHandler.push onHide fresh w))) = Some e ∧
  showing (snd (fst (UseBackHandler.push onHide fresh w))) = showing w ∧
  registry (snd (fst (UseBackHandler.push onHide fresh w))) =
    with_stack (registry w) (stack (registry w) ++ [e]).
Proof.
  unfold UseBackHandler.push, on_registry, set_entry, bind. simpl.
  rewrite push_run.
  by destruct (notified (_options (registry w)) onPush OnPush _) as [[[]|err|] evs].
Qed.

Lemma use_dispose_run w :
  UseBackHandler.onScopeDispose w =
  if showing w then UseBackHandler.remove w else (Ok tt, w, []).
Proof.
  unfold UseBackHandler.onScopeDispose, bind at 1, get.
  destruct (showing w); [|done].
  by destruct (UseBackHandler.remove w) as [[? ?] ?].
Qed.

(** C8. A binding owns an entry and its scope is disposed.  When the
    visibility source reads [true], the registry's [remove] is run on that
    entry; with the entry on the stack, its first slot is spliced out and the
    stack is one shorter.  When it reads [false], the disposal does nothing:
    same registry, same owned entry, no observer call. *)
Theorem scope_dispose_retracts_iff_showing
    (w : Scope) (e : BackHandlerEntry) :
  entry w = Some e →
  if showing w then
    registry (snd (fst (UseBackHandler.onScopeDispose w))) =
      snd (fst (BackHandler.remove e (registry w))) ∧
    snd (UseBackHandler.onScopeDispose w) =
      snd (BackHandler.remove e (registry w)) ∧
    ((∃ x, x ∈ stack (registry w) ∧ ref x = ref e) →
     ∃ i, indexOf e (stack (registry w)) = Some i ∧
       registry (snd (fst (UseBackHandler.onScopeDispose w))) =
         with_stack (registry w) (delete i (stack (registry w))) ∧
       length (stack (registry (snd (fst (UseBackHandler.onScopeDispose w))))) + 1
         = length (stack (registry w)))
  else
    UseBackHandler.onScopeDispose w = (Ok tt, w, []).
Proof.
  intros He. rewrite use_dispose_run.
  destruct (showing w) eqn:Hshow; [|done].
  destruct (use_remove_registry w e He) as [Hreg Hev].
  split_and!; [done..|]. intros (x & Hin & Hx).
  destruct (indexOf_present e _ x Hin Hx) as [i Hi]. exists i.
  rewrite Hreg, (remove_run_present _ _ _ Hi). simpl.
  split_and!; try done.
  apply indexOf_Some in Hi as (y & Hy & _).
  rewrite length_delete by (by eexists).
  apply lookup_lt_Some in Hy. lia.
Qed.

(** C9 (as amended). With the registry initialized: [push] calls a
    configured [onPush], and [remove] of an entry that is on the stack calls
    a configured [onRemove], within the call, after the stack has changed and
    with the very entry given; an exception of the observer is the outcome of
    the call and the change of the stack stays.  A removal made by a dispatch
    calls [onRemove] the same way, but an exception it throws is caught by
    the [try]/[catch] of [onBackPress]: the promise is fulfilled. *)
Theorem observers_get_entry_and_throw_through
    (st : Static) (entry : BackHandlerEntry) (o : BackHandlerOptions) :
  _options st = Some o →
  (∀ f, onPush o = Some f →
     BackHandler.push entry st =
     (if fn_throws f entry then Throw (Thrown (fn_ref f)) else Ok tt,
      with_stack st (stack st ++ [entry]),
      [OnPush (fn_ref f) entry])) ∧
  (∀ f i, onRemove o = Some f → indexOf entry (stack st) = Some i →
     BackHandler.remove entry st =
     (if fn_throws f entry then Throw (Thrown (fn_ref f)) else Ok tt,
      with_stack st (delete i (stack st)),
      [OnRemove (fn_ref f) entry])) ∧
  (∀ f i v, onRemove o = Some f → indexOf entry (stack st) = Some i →
     stack st !! (length (stack st) - 1) = Some entry →
     settles_with entry v → v ≠ VBool false →
     BackHandler.onBackPress [] st =
     (Fulfilled,
      with_stack st (delete i (stack st)),
      [Handler entry; OnRemove (fn_ref f) entry])).
Proof.
  intros Ho. split_and!.
  - intros f Hf. rewrite push_run, Ho. simpl. by rewrite Hf.
  - intros f i Hf Hi. rewrite (remove_run_present _ _ _ Hi), Ho. simpl.
    by rewrite Hf.
  - intros f i v Hf Hi Htop Hv Hnf%is_not_false_true.
    rewrite top_lookup in Htop.
    rewrite (onBackPress_accepted st st [] [] entry Htop (run_calls_nil st) v Hv Hnf).
    rewrite (remove_run_present _ _ _ Hi), Ho. simpl. by rewrite Hf.
Qed.

(* ------------------------------------------------------------------------- *)
(** * Concrete runs *)

Lemma st_AB_stack : stack st_AB = [entryA; entryB].
Proof. reflexivity. Qed.

(** The entry on top also sits lower in the stack: the dispatch takes out
    the lower slot, as [indexOf] finds that one first. *)
Example onBackPress_duplicate_slot :
  BackHandler.onBackPress []
    {| stack := [entryB; entryA; entryB]; _options := Some sample_options;
       isInitialized := true |} =
  (Fulfilled,
   {| stack := [entryA; entryB]; _options := Some sample_options;
      isInitialized := true |},
   [Handler entryB; OnRemove 12 entryB]).
Proof. reflexivity. Qed.

(** The entry is removed while its handler is awaited: the removal of the
    dispatch finds nothing and [onRemove] was called once in all. *)
Example onBackPress_double_remove :
  BackHandler.onBackPress [CallRemove entryB] st_AB =
  (Fulfilled, with_stack st_AB [entryA], [Handler entryB; OnRemove 12 entryB]).
Proof. reflexivity. Qed.

(** A handler whose promise is rejected, and one whose promise stays
    pending. *)
Example onBackPress_rejected_handler :
  BackHandler.onBackPress [] (with_stack st_ready [entryReject]) =
  (Fulfilled, with_stack st_ready [entryReject], [Handler entryReject]).
Proof. reflexivity. Qed.

Example onBackPress_unsettled_handler :
  BackHandler.onBackPress []
    (with_stack st_ready [mkEntry 6 (fun _ => NeverSettles)]) =
  (Pending, with_stack st_ready [mkEntry 6 (fun _ => NeverSettles)],
   [Handler (mkEntry 6 (fun _ => NeverSettles))]).
Proof. reflexivity. Qed.

(** Empty stack: the fallback, once; on a registry never initialized the
    promise is rejected. *)
Example onBackPress_empty_stack :
  BackHandler.onBackPress [] st_ready = (Fulfilled, st_ready, [Fallback 10]) ∧
  BackHandler.onBackPress [] initial = (Rejected NotInitialized, initial, []).
Proof. split; reflexivity. Qed.

(** [install] on a fresh registry: [init], then [bind], then the unmount
    hook. *)
Example install_fresh :
  BackHandler.install sample_options (quiet 30) initial =
  (Ok tt, st_ready, [Bind 30; OnUnmount]).
Proof. reflexivity. Qed.

Lemma onBackPress_top_handler_then_remove_witness :
  stack st_AB ≠ [] ∧
  handlers_invoked (snd (BackHandler.onBackPress [CallPush entryKeep] st_AB))
    = [entryB] ∧
  BackHandler.onBackPress [] st_AB =
    (Fulfilled, with_stack st_AB [entryA],
     [Handler entryB; OnRemove 12 entryB]).
Proof.
  assert (stack st_AB ≠ []) as Hne by (by vm_compute).
  split; [exact Hne|].
  destruct (onBackPress_top_handler_then_remove st_AB [CallPush entryKeep] Hne)
    as (top & Htop & Hinv & _).
  assert (Some top = Some entryB) as [= ->] by (rewrite <- Htop; reflexivity).
  split; [exact Hinv|reflexivity].
Defined.

Lemma onBackPress_false_or_failure_keeps_entry_witness :
  stack st_keep !! (length (stack st_keep) - 1) = Some entryKeep ∧
  (settles_with entryKeep (VBool false) ∨ fails entryKeep) ∧
  BackHandler.onBackPress [] st_keep = (Fulfilled, st_keep, [Handler entryKeep]).
Proof.
  assert (stack st_keep !! (length (stack st_keep) - 1) = Some entryKeep)
    as Htop by reflexivity.
  assert (settles_with entryKeep (VBool false) ∨ fails entryKeep)
    as Hv by (left; left; reflexivity).
  split; [exact Htop|]. split; [exact Hv|].
  exact (proj2 (onBackPress_false_or_failure_keeps_entry
                  st_keep [] entryKeep Htop Hv)).
Defined.

Lemma init_install_when_initialized_witness :
  isInitialized st_ready = true ∧
  BackHandler.init other_options st_ready = (Ok tt, st_ready, [Warn]) ∧
  BackHandler.install other_options (quiet 30) st_ready = (Ok tt, st_ready, []).
Proof.
  assert (isInitialized st_ready = true) as Hi by reflexivity.
  split; [exact Hi|].
  destruct (init_install_when_initialized st_ready other_options (quiet 30) Hi)
    as (H1 & H2 & _).
  split; [exact H1|exact H2].
Defined.

(** C6, as stated, fails for [install]: called on an initialized registry it
    returns without any warning. *)
Lemma install_when_initialized_is_silent :
  isInitialized st_ready = true ∧
  snd (BackHandler.install other_options (quiet 30) st_ready) = [] ∧
  ¬ warns_and_preserves (BackHandler.install other_options (quiet 30)) st_ready.
Proof.
  split; [reflexivity|]. split; [reflexivity|].
  intros (evs & Hrun & Hwarn). vm_compute in Hrun.
  assert (evs = []) as -> by congruence.
  by apply elem_of_nil in Hwarn.
Qed.

Lemma scope_dispose_retracts_iff_showing_witness :
  entry (scope_pushed true) = Some (mkEntry 5 (fun _ => Returns VUndefined)) ∧
  length (stack (registry (scope_pushed true))) = 1 ∧
  length (stack (registry
    (snd (fst (UseBackHandler.onScopeDispose (scope_pushed true)))))) = 0.
Proof.
  pose (e := mkEntry 5 (fun _ => Returns VUndefined)).
  assert (entry (scope_pushed true) = Some e) as He by reflexivity.
  assert (∃ x, x ∈ stack (registry (scope_pushed true)) ∧ ref x = ref e) as Hin.
  { exists e. split; [|reflexivity]. vm_compute. apply list_elem_of_here. }
  split; [exact He|]. split; [reflexivity|].
  pose proof (scope_dispose_retracts_iff_showing (scope_pushed true) e He)
    as H.
  change (showing (scope_pushed true)) with true in H. cbv beta iota in H.
  destruct H as (_ & _ & Hsplice).
  destruct (Hsplice Hin) as (i & _ & _ & Hlen).
  change (length (stack (registry (scope_pushed true)))) with 1 in Hlen.
  apply Nat.add_cancel_r with (p := 1). exact Hlen.
Defined.

(** The same binding with its region hidden: disposal leaves the entry. *)
Lemma scope_dispose_hidden_keeps_entry :
  UseBackHandler.onScopeDispose (scope_pushed false) =
    (Ok tt, scope_pushed false, []) ∧
  length (stack (registry (scope_pushed false))) = 1.
Proof. split; reflexivity. Qed.

Lemma observers_get_entry_and_throw_through_witness :
  _options st_throwing = Some throwing_options ∧
  BackHandler.remove entryA st_throwing =
    (Throw (Thrown 13), with_stack st_throwing [], [OnRemove 13 entryA]) ∧
  BackHandler.onBackPress [] st_throwing =
    (Fulfilled, with_stack st_throwing [], [Handler entryA; OnRemove 13 entryA]).
Proof.
  assert (_options st_throwing = Some throwing_options) as Ho by reflexivity.
  split; [exact Ho|].
  destruct (observers_get_entry_and_throw_through st_throwing entryA _ Ho)
    as (_ & Hrem & Hback).
  split.
  - exact (Hrem (failing 13) 0 eq_refl eq_refl).
  - refine (Hback (failing 13) 0 VUndefined eq_refl eq_refl eq_refl _ _).
    + left. reflexivity.
    + discriminate.
Defined.

(** C9, as stated, fails for a removal made by a dispatch: [onRemove] is
    called and throws, and the promise of [onBackPress] is fulfilled all the
    same. *)
Lemma onBackPress_swallows_observer_exception :
  onRemove throwing_options = Some (failing 13) ∧
  fn_throws (failing 13) entryA = true ∧
  snd (BackHandler.onBackPress [] st_throwing) =
    [Handler entryA; OnRemove 13 entryA] ∧
  fst (fst (BackHandler.onBackPress [] st_throwing)) = Fulfilled ∧
  ¬ surfaces (fst (fst (BackHandler.onBackPress [] st_throwing))) (failing 13).
Proof. split_and!; try reflexivity. unfold surfaces. by vm_compute. Qed.

Lemma push_uninitialized_throws_after_append_witness :
  _options initial = None ∧
  BackHandler.push entryA initial =
    (Throw NotInitialized, with_stack initial [entryA], []).
Proof.
  split; [reflexivity|].
  exact (push_uninitialized_throws_after_append initial entryA eq_refl).
Defined.

(* ------------------------------------------------------------------------- *)
(** * Further properties: lifecycle *)

(** X1. In every state the registry can reach through its methods,
    [isInitialized] is true exactly when [_options] holds an options object;
    so [options] throws exactly in the states with [isInitialized] false. *)
Theorem reachable_flag_matches_options (st : Static) :
  reachable st →
  (isInitialized st = true ↔ ∃ o, _options st = Some o) ∧
  (isInitialized st = false ↔
     BackHandler.options st = (Throw NotInitialized, st, [])).
Proof.
  intros Hc%reachable_consistent. unfold consistent, is_Some in Hc.
  split; [done|]. unfold BackHandler.options, bind, get; simpl.
  destruct (_options st) as [o|] eqn:Ho; simpl.
  - split; [|done]. intros Hi.
    assert (isInitialized st = true) by (apply Hc; by eexists). congruence.
  - split; [done|]. intros _. destruct (isInitialized st) eqn:Hi; [|done].
    destruct Hc as [Hc _]. by destruct (Hc eq_refl).
Qed.

Lemma reachable_flag_matches_options_witness :
  reachable st_AB ∧
  (isInitialized st_AB = true ↔ ∃ o, _options st_AB = Some o).
Proof.
  assert (reachable st_AB) as Hr.
  { change st_AB with
      (after (MPush entryB) (after (MPush entryA)
         (after (MInit sample_options) initial))).
    repeat apply reachable_after. apply reachable_initial. }
  split; [exact Hr|].
  exact (proj1 (reachable_flag_matches_options st_AB Hr)).
Defined.

(** X2. [install] on a registry that is not initialized stores the options
    and calls [bind] once, before the unmount hook is registered.  When
    [bind] throws, the registry stays initialized and the hook is never
    registered.  Either way a second [install] does nothing: no [bind] call,
    no change. *)
Theorem install_binds_once (st : Static) (o o' : BackHandlerOptions)
    (b b' : Fn unit) :
  isInitialized st = false →
  let st1 := snd (fst (BackHandler.install o b st)) in
  st1 = {| stack := stack st; _options := Some o; isInitialized := true |} ∧
  binds (snd (BackHandler.install o b st)) = [fn_ref b] ∧
  (if fn_throws b tt
   then fst (fst (BackHandler.install o b st)) = Throw (Thrown (fn_ref b)) ∧
        OnUnmount ∉ snd (BackHandler.install o b st)
   else BackHandler.install o b st =
        (Ok tt, st1, [Bind (fn_ref b); OnUnmount])) ∧
  BackHandler.install o' b' st1 = (Ok tt, st1, []).
Proof.
  intros Hi. simpl. rewrite !install_run, Hi. simpl. split_and!.
  - done.
  - by destruct (fn_throws b tt).
  - destruct (fn_throws b tt); [|done]. split; [done|].
    intros Hin. apply list_elem_of_singleton in Hin. discriminate.
  - done.
Qed.

Lemma install_binds_once_witness :
  isInitialized initial = false ∧
  BackHandler.install sample_options (failing 31) initial =
    (Throw (Thrown 31), st_ready, [Bind 31]) ∧
  BackHandler.install other_options (quiet 30) st_ready = (Ok tt, st_ready, []).
Proof.
  split; [reflexivity|]. split; [reflexivity|].
  exact (proj2 (proj2 (proj2
    (install_binds_once initial sample_options other_options
       (failing 31) (quiet 30) eq_refl)))).
Defined.

(** X3. [init] right after [destroy] always takes effect, without a warning,
    whatever the registry held before: the stack is empty, the new options
    are in force, and a dispatch calls the new [fallback]. *)
Theorem destroy_then_init_starts_afresh (st : Static) (o : BackHandlerOptions) :
  (BackHandler.destroy >> BackHandler.init o) st =
    (Ok tt, {| stack := []; _options := Some o; isInitialized := true |}, []) ∧
  snd (BackHandler.onBackPress []
         (snd (fst ((BackHandler.destroy >> BackHandler.init o) st)))) =
    [Fallback (fn_ref (fallback o))].
Proof.
  assert ((BackHandler.destroy >> BackHandler.init o) st =
    (Ok tt, {| stack := []; _options := Some o; isInitialized := true |}, []))
    as -> by done.
  split; [done|]. simpl. by rewrite onBackPress_empty.
Qed.

(** X4. An entry pushed before [init] (the push threw) is still on the
    stack after [init], which keeps the stack as it finds it, and is the one
    a dispatch then calls. *)
Theorem entry_pushed_before_init_is_dispatched
    (st : Static) (e : BackHandlerEntry) (o : BackHandlerOptions) :
  isInitialized st = false → _options st = None →
  let st1 := snd (fst (BackHandler.push e st)) in
  let st2 := snd (fst (BackHandler.init o st1)) in
  fst (fst (BackHandler.push e st)) = Throw NotInitialized ∧
  BackHandler.init o st1 = (Ok tt, st2, []) ∧
  stack st2 = stack st ++ [e] ∧
  _options st2 = Some o ∧
  handlers_invoked (snd (BackHandler.onBackPress [] st2)) = [e].
Proof.
  intros Hi Ho. simpl. rewrite push_run, Ho. simpl.
  rewrite init_run. simpl. rewrite Hi. simpl. split_and!; try done.
  set (st2 := {| stack := stack st ++ [e]; _options := Some o;
                 isInitialized := true |}).
  assert (last (stack st2) = Some e) as Htop by apply last_snoc.
  destruct (onBackPress_trace st2 st2 [] [] e Htop (run_calls_nil st2))
    as (evs & -> & Hevs).
  unfold handlers_invoked; simpl. fold (handlers_invoked evs).
  by rewrite observer_events_no_handler.
Qed.

Lemma entry_pushed_before_init_is_dispatched_witness :
  isInitialized initial = false ∧ _options initial = None ∧
  handlers_invoked
    (snd (BackHandler.onBackPress []
       (snd (fst (BackHandler.init sample_options
          (snd (fst (BackHandler.push entryA initial)))))))) = [entryA].
Proof.
  split; [reflexivity|]. split; [reflexivity|].
  exact (proj2 (proj2 (proj2 (proj2
    (entry_pushed_before_init_is_dispatched initial entryA sample_options
       eq_refl eq_refl))))).
Defined.

(* ------------------------------------------------------------------------- *)
(** * Further properties: sequences of [push] and [remove] *)

Lemma run_call_never_hangs c st :
  fst (fst (BackHandler.run_call c st)) ≠ Hang.
Proof.
  destruct c as [e|e]; simpl.
  - rewrite push_run. simpl. apply notified_never_hangs.
  - apply remove_never_hangs.
Qed.

Lemma run_calls_cons c cs st :
  BackHandler.run_calls (c :: cs) st =
  (Ok tt,
   snd (fst (BackHandler.run_calls cs (snd (fst (BackHandler.run_call c st))))),
   snd (BackHandler.run_call c st) ++
   snd (BackHandler.run_calls cs (snd (fst (BackHandler.run_call c st))))).
Proof.
  simpl. unfold bind at 1, try_catch, ret.
  pose proof (run_call_never_hangs c st) as Hh.
  destruct (BackHandler.run_call c st) as [[[[]|err|] s1] ev1]; simpl in *;
    [| |done];
    destruct (run_calls_spec cs s1) as (s2 & ev2 & -> & _); simpl;
    by rewrite ?app_nil_r.
Qed.

Lemma remove_length entry st :
  length (stack (snd (fst (BackHandler.remove entry st)))) +
    match indexOf entry (stack st) with Some _ => 1 | None => 0 end =
  length (stack st).
Proof.
  destruct (indexOf entry (stack st)) as [i|] eqn:Hi.
  - rewrite (remove_run_present _ _ _ Hi). simpl.
    apply indexOf_Some in Hi as (y & Hy & _).
    rewrite length_delete by (by eexists).
    apply lookup_lt_Some in Hy. lia.
  - rewrite (remove_run_absent _ _ Hi). simpl. lia.
Qed.

(** X5. [push(e)] followed by [remove(e)]: when [e] was not on the stack the
    stack is back to what it was; when it was, the slot taken out is the
    earlier one, so the stack has the same length but [e] has moved to the
    top.  This holds whether or not the calls throw. *)
Theorem push_then_remove (st : Static) (e : BackHandlerEntry) :
  let st1 := snd (fst (BackHandler.push e st)) in
  let st2 := snd (fst (BackHandler.remove e st1)) in
  ((∀ x, x ∈ stack st → ref x ≠ ref e) → st2 = st) ∧
  (∀ l1 x l2, stack st = l1 ++ x :: l2 → ref x = ref e →
     (∀ y, y ∈ l1 → ref y ≠ ref e) →
     stack st2 = l1 ++ l2 ++ [e]) ∧
  length (stack st2) = length (stack st).
Proof.
  simpl. rewrite push_run. simpl.
  set (st1 := with_stack st (stack st ++ [e])). split_and!.
  - intros Habs.
    rewrite (remove_first_occurrence e st1 (stack st) e []); [| |done..].
    + simpl. rewrite app_nil_r. by destruct st.
    + done.
  - intros l1 x l2 Hst Hx Hl1.
    rewrite (remove_first_occurrence e st1 l1 x (l2 ++ [e])); [done| |done..].
    simpl. rewrite Hst. by rewrite <- (assoc_L (++)).
  - pose proof (remove_length e st1) as Hlen.
    destruct (indexOf_present e (stack st1) e) as [i Hi]; [|done|].
    { simpl. apply elem_of_app. right. by apply list_elem_of_singleton. }
    rewrite Hi in Hlen. simpl in Hlen. rewrite length_app in Hlen.
    simpl in Hlen. lia.
Qed.

Lemma run_call_accounts c st o :
  _options st = Some o →
  _options (snd (fst (BackHandler.run_call c st))) = Some o ∧
  onPush_trace (snd (BackHandler.run_call c st)) =
    match onPush o with Some _ => pushed [c] | None => [] end ∧
  (is_Some (onRemove o) →
   length (stack (snd (fst (BackHandler.run_call c st)))) +
     length (onRemove_trace (snd (BackHandler.run_call c st))) =
   length (stack st) + length (pushed [c])).
Proof.
  intros Ho. destruct c as [e|e]; simpl.
  - rewrite push_run, Ho. simpl. split; [done|].
    destruct (onPush o) as [f|]; simpl.
    + split; [done|]. intros _. by rewrite length_app.
    + split; [done|]. intros _. by rewrite length_app.
  - pose proof (remove_length e st) as Hlen.
    destruct (indexOf e (stack st)) as [i|] eqn:Hi.
    + rewrite (remove_run_present _ _ _ Hi) in *. rewrite Ho. simpl in *.
      split; [done|]. split.
      * by destruct (onPush o), (onRemove o).
      * intros [f ->]. simpl. lia.
    + rewrite (remove_run_absent _ _ Hi) in *. simpl in *.
      split; [done|]. split; [by destruct (onPush o)|]. intros _. lia.
Qed.

(** X6. On an initialized registry, over any sequence of [push] and [remove]
    calls (some of which may throw): a configured [onPush] is given exactly
    the pushed entries, in the order of the pushes; and with [onRemove]
    configured, every slot that left the stack was announced by one
    [onRemove] call, so stack length plus [onRemove] calls equals the
    starting length plus the pushes. *)
Theorem observers_account_for_every_slot
    (st : Static) (cs : list Call) (o : BackHandlerOptions) :
  _options st = Some o →
  (is_Some (onPush o) →
     onPush_trace (snd (BackHandler.run_calls cs st)) = pushed cs) ∧
  (is_Some (onRemove o) →
     length (stack (snd (fst (BackHandler.run_calls cs st)))) +
       length (onRemove_trace (snd (BackHandler.run_calls cs st))) =
     length (stack st) + length (pushed cs)).
Proof.
  revert st. induction cs as [|c cs IH]; intros st Ho.
  - split; intros _; simpl; [done|lia].
  - replace (pushed (c :: cs)) with (pushed [c] ++ pushed cs)
      by (by destruct c).
    rewrite run_calls_cons. cbn [fst snd].
    destruct (run_call_accounts c st o Ho) as (Ho1 & Hpush & Hrem).
    destruct (IH _ Ho1) as [IHpush IHrem]. split.
    + intros Hp. unfold onPush_trace in *. rewrite omap_app.
      rewrite Hpush, (IHpush Hp). by destruct Hp as [f ->].
    + intros Hr. specialize (Hrem Hr). specialize (IHrem Hr).
      unfold onRemove_trace in *. rewrite omap_app, !length_app. lia.
Qed.

Lemma observers_account_for_every_slot_witness :
  _options st_AB = Some sample_options ∧
  onPush_trace (snd (BackHandler.run_calls
    [CallPush entryKeep; CallRemove entryA; CallRemove entryA] st_AB)) =
    [entryKeep] ∧
  length (onRemove_trace (snd (BackHandler.run_calls
    [CallPush entryKeep; CallRemove entryA; CallRemove entryA] st_AB))) = 1.
Proof.
  split; [reflexivity|].
  destruct (observers_account_for_every_slot st_AB
    [CallPush entryKeep; CallRemove entryA; CallRemove entryA]
    sample_options eq_refl) as [Hp _].
  split; [|reflexivity].
  apply Hp. by eexists.
Defined.

(* ------------------------------------------------------------------------- *)
(** * Further properties: dispatch *)

(** A dispatch on a non-empty stack, by the way the top handler completes. *)
Lemma onBackPress_nonempty st st1 during ev1 top :
  last (stack st) = Some top →
  BackHandler.run_calls during st = (Ok tt, st1, ev1) →
  BackHandler.onBackPress during st =
  match handler top tt with
  | Returns v | Resolves v =>
      if is_not_false v
      then (Fulfilled, snd (fst (BackHandler.remove top st1)),
            Handler top :: ev1 ++ snd (BackHandler.remove top st1))
      else (Fulfilled, st1, Handler top :: ev1)
  | ThrowsSync | Rejects => (Fulfilled, st1, Handler top :: ev1)
  | NeverSettles => (Pending, st1, Handler top :: ev1)
  end.
Proof.
  intros Htop Hr. destruct (handler top tt) as [v| |v| |] eqn:Hc.
  1,3: destruct (is_not_false v) eqn:Hnf;
    [ by eapply onBackPress_accepted; eauto; (by left) || (by right)
    | destruct v as [|[]]; try done;
      by eapply onBackPress_declined; eauto; (by left) || (by right) ].
  1,2: by eapply onBackPress_failed; eauto; (by left) || (by right).
  by eapply onBackPress_pending.
Qed.

(** X7. The promise of [onBackPress] is rejected only on an empty stack:
    with the not-initialized error when the registry has no options, or with
    what [fallback] throws.  It stays pending exactly when the stack is not
    empty and the top handler never settles.  In every other case it is
    fulfilled. *)
Theorem onBackPress_promise (st : Static) (during : list Call) :
  (∀ err, fst (fst (BackHandler.onBackPress during st)) = Rejected err ↔
     stack st = [] ∧
     match _options st with
     | None => err = NotInitialized
     | Some o =>
         fn_throws (fallback o) tt = true ∧ err = Thrown (fn_ref (fallback o))
     end) ∧
  (fst (fst (BackHandler.onBackPress during st)) = Pending ↔
     ∃ top, last (stack st) = Some top ∧ handler top tt = NeverSettles).
Proof.
  destruct (stack st) as [|x l] eqn:Hs.
  - rewrite (onBackPress_empty _ _ Hs). split.
    + intros err. destruct (_options st) as [o|]; simpl.
      * destruct (fn_throws (fallback o) tt); simpl.
        -- split; [by intros [= <-]|by intros (_ & _ & ->)].
        -- split; [done|by intros (_ & ? & _)].
      * split; [by intros [= <-]|by intros (_ & ->)].
    + split; [|by intros (top & ? & _)].
      destruct (_options st) as [o|]; simpl; [|done].
      by destruct (fn_throws (fallback o) tt).
  - destruct (last_nonempty (stack st)) as [top Htop]; [by rewrite Hs|].
    destruct (run_calls_spec during st) as (st1 & ev1 & Hr & _).
    rewrite (onBackPress_nonempty st st1 during ev1 top Htop Hr).
    rewrite Hs in Htop. split.
    + intros err. split; [|by intros [? _]].
      destruct (handler top tt) as [v| |v| |]; try destruct (is_not_false v);
        done.
    + split.
      * intros Hp. exists top. split; [done|].
        destruct (handler top tt) as [v| |v| |];
          try destruct (is_not_false v); done.
      * intros (top' & Htop' & Hc). simplify_eq. by rewrite Hc.
Qed.

Lemma remove_sublist entry st :
  stack (snd (fst (BackHandler.remove entry st))) `sublist_of` stack st.
Proof.
  destruct (indexOf entry (stack st)) as [i|] eqn:Hi.
  - rewrite (remove_run_present _ _ _ Hi). apply sublist_delete.
  - by rewrite (remove_run_absent _ _ Hi).
Qed.

(** X8. A dispatch never adds an entry and never changes the
    configuration: afterwards the stack is a subsequence of the old stack
    followed by what was pushed meanwhile, and [_options] and
    [isInitialized] are as before.  With nothing pushed or removed
    meanwhile, at most one slot is gone. *)
Theorem onBackPress_stack_bounds (st : Static) (during : list Call) :
  stack (snd (fst (BackHandler.onBackPress during st)))
    `sublist_of` stack st ++ pushed during ∧
  _options (snd (fst (BackHandler.onBackPress during st))) = _options st ∧
  isInitialized (snd (fst (BackHandler.onBackPress during st))) =
    isInitialized st ∧
  stack (snd (fst (BackHandler.onBackPress [] st))) `sublist_of` stack st ∧
  length (stack st) ≤
    length (stack (snd (fst (BackHandler.onBackPress [] st)))) + 1.
Proof.
  assert (∀ d, stack (snd (fst (BackHandler.onBackPress d st)))
                 `sublist_of` stack st ++ pushed d) as Hsub.
  { intros d. destruct (stack st) as [|x l] eqn:Hs.
    - rewrite (onBackPress_empty _ _ Hs).
      destruct (_options st); simpl; rewrite Hs; apply sublist_nil_l.
    - destruct (last_nonempty (stack st)) as [top Htop]; [by rewrite Hs|].
      destruct (run_calls_spec d st) as (st1 & ev1 & Hr & _ & _ & _ & Hs1).
      rewrite (onBackPress_nonempty st st1 d ev1 top Htop Hr).
      rewrite Hs in Hs1.
      pose proof (remove_sublist top st1) as Hrm.
      destruct (handler top tt) as [v| |v| |];
        try destruct (is_not_false v); simpl; try done;
        by etrans. }
  destruct (onBackPress_keeps_configuration during st) as [Ho Hi].
  split_and!; [done..| |].
  - specialize (Hsub []). simpl in Hsub. by rewrite app_nil_r in Hsub.
  - destruct (stack st) as [|x l] eqn:Hs.
    + simpl. lia.
    + destruct (last_nonempty (stack st)) as [top Htop]; [by rewrite Hs|].
      rewrite (onBackPress_nonempty st st [] [] top Htop (run_calls_nil st)).
      pose proof (remove_length top st) as Hlen. rewrite Hs in Hlen.
      destruct (handler top tt) as [v| |v| |];
        try destruct (is_not_false v); simpl; rewrite ?Hs;
        try destruct (indexOf top (x :: l)); simpl in *; lia.
Qed.

(** X9. The removal at the end of a dispatch goes by the identity of the
    entry whose handler was called, on the stack as it is by then.  If that
    entry has been removed meanwhile, nothing more is removed and no observer
    is called again; if other entries have been pushed meanwhile, they stay,
    and the slot taken out is the first one holding the called entry. *)
Theorem onBackPress_removes_by_identity
    (st st1 : Static) (during : list Call) (ev1 : list Event)
    (top : BackHandlerEntry) :
  last (stack st) = Some top → accepts top →
  BackHandler.run_calls during st = (Ok tt, st1, ev1) →
  ((∀ x, x ∈ stack st1 → ref x ≠ ref top) →
     BackHandler.onBackPress during st = (Fulfilled, st1, Handler top :: ev1)) ∧
  (∀ l1 x l2, stack st1 = l1 ++ x :: l2 → ref x = ref top →
     (∀ y, y ∈ l1 → ref y ≠ ref top) →
     snd (fst (BackHandler.onBackPress during st)) = with_stack st1 (l1 ++ l2)).
Proof.
  intros Htop (v & Hv & Hnf%is_not_false_true) Hr.
  rewrite (onBackPress_accepted st st1 during ev1 top Htop Hr v Hv Hnf).
  split.
  - intros Habs. rewrite remove_run_absent by (by apply indexOf_None).
    simpl. by rewrite app_nil_r.
  - intros l1 x l2 Hst Hx Hl1.
    by rewrite (remove_first_occurrence top st1 l1 x l2 Hst Hx Hl1).
Qed.

Lemma onBackPress_removes_by_identity_witness :
  last (stack st_AB) = Some entryB ∧ accepts entryB ∧
  BackHandler.onBackPress [CallRemove entryB; CallPush entryKeep] st_AB =
    (Fulfilled, with_stack st_AB [entryA; entryKeep],
     [Handler entryB; OnRemove 12 entryB; OnPush 11 entryKeep]).
Proof.
  assert (accepts entryB) as Hacc.
  { exists (VBool true). split; [by right|discriminate]. }
  split; [reflexivity|]. split; [exact Hacc|].
  refine (proj1 (onBackPress_removes_by_identity st_AB
    (with_stack st_AB [entryA; entryKeep])
    [CallRemove entryB; CallPush entryKeep]
    [OnRemove 12 entryB; OnPush 11 entryKeep] entryB eq_refl Hacc eq_refl) _).
  intros x Hx. vm_compute in Hx.
  apply elem_of_cons in Hx as [->|Hx]; [discriminate|].
  apply list_elem_of_singleton in Hx as ->. discriminate.
Defined.

(* ------------------------------------------------------------------------- *)
(** * Further properties: repeated signals *)

Lemma presses_S n st :
  presses (S n) st =
  (fst (presses n (snd (fst (BackHandler.onBackPress [] st)))),
   snd (BackHandler.onBackPress [] st) ++
   snd (presses n (snd (fst (BackHandler.onBackPress [] st))))).
Proof.
  simpl. destruct (BackHandler.onBackPress [] st) as [[p st1] ev1]. simpl.
  by destruct (presses n st1).
Qed.

Lemma presses_drain (l : list BackHandlerEntry) :
  ∀ st, stack st = l →
    NoDup (ref <$> l) → Forall accepts l →
    fst (presses (length l) st) = with_stack st [] ∧
    handlers_invoked (snd (presses (length l) st)) = reverse l ∧
    fallback_calls (snd (presses (length l) st)) = [] ∧
    (∀ o, _options st = Some o → is_Some (onRemove o) →
       onRemove_trace (snd (presses (length l) st)) = reverse l).
Proof.
  induction l as [|top l IH] using rev_ind; intros st Hst Hnd Hacc.
  - simpl. split_and!; try done. unfold with_stack. rewrite <- Hst.
    by destruct st.
  - rewrite fmap_app in Hnd. apply NoDup_app in Hnd as (Hnd & Hfresh & _).
    apply Forall_app in Hacc as [Hacc Htop].
    rewrite Forall_singleton in Htop. unfold accepts in Htop.
    destruct Htop as (v & Hv & Hnf). apply is_not_false_true in Hnf.
    assert (∀ y, y ∈ l → ref y ≠ ref top) as Hl.
    { intros y Hy Heq. apply (Hfresh (ref y)).
      - by apply list_elem_of_fmap_2.
      - rewrite Heq. apply list_elem_of_here. }
    assert (last (stack st) = Some top) as Hlast
      by (rewrite Hst; apply last_snoc).
    assert (BackHandler.onBackPress [] st =
      (Fulfilled, with_stack st l,
       Handler top :: snd (notified (_options st) onRemove OnRemove top)))
      as Hpress.
    { rewrite (onBackPress_accepted st st [] [] top Hlast (run_calls_nil st)
                 v Hv Hnf).
      rewrite (remove_first_occurrence top st l top []); [|done..].
      by rewrite app_nil_r. }
    rewrite length_app, Nat.add_1_r, presses_S, Hpress. simpl.
    destruct (IH (with_stack st l) eq_refl Hnd Hacc)
      as (Hstate & Hinv & Hfb & Hrm).
    pose proof (notified_events (_options st) onRemove OnRemove top
                  (λ _ _, I)) as Hobs.
    rewrite reverse_snoc. split_and!.
    + exact Hstate.
    + unfold handlers_invoked in *. simpl. rewrite omap_app. f_equal.
      fold (handlers_invoked
              (snd (notified (_options st) onRemove OnRemove top))).
      by rewrite (observer_events_no_handler _ Hobs), Hinv.
    + unfold fallback_calls in *. simpl. rewrite omap_app.
      fold (fallback_calls
              (snd (notified (_options st) onRemove OnRemove top))).
      by rewrite (observer_events_no_fallback _ Hobs), Hfb.
    + intros o Ho [f Hf]. unfold onRemove_trace in *. simpl.
      rewrite omap_app, Ho. simpl. rewrite Hf. simpl. f_equal.
      apply (Hrm o); [done|by eexists].
Qed.

(** X10. A stack of distinct entries whose handlers all accept is emptied
    by as many signals as it has entries, last pushed first: the handlers
    are called in the reverse of the stack order, a configured [onRemove] is
    given the entries in that same order, and [fallback] is not called
    before the stack is empty. *)
Theorem presses_drain_lifo (st : Static) :
  NoDup (ref <$> stack st) → Forall accepts (stack st) →
  fst (presses (length (stack st)) st) = with_stack st [] ∧
  handlers_invoked (snd (presses (length (stack st)) st)) =
    reverse (stack st) ∧
  fallback_calls (snd (presses (length (stack st)) st)) = [] ∧
  (∀ o, _options st = Some o → is_Some (onRemove o) →
     onRemove_trace (snd (presses (length (stack st)) st)) =
       reverse (stack st)).
Proof. intros Hnd Hacc. by apply presses_drain. Qed.

Lemma presses_drain_lifo_witness :
  NoDup (ref <$> stack st_AB) ∧ Forall accepts (stack st_AB) ∧
  handlers_invoked (snd (presses 2 st_AB)) = [entryB; entryA] ∧
  fst (presses 2 st_AB) = with_stack st_AB [].
Proof.
  assert (NoDup (ref <$> stack st_AB)) as Hnd.
  { change (NoDup [1; 2]). apply NoDup_cons. split; [|apply NoDup_singleton].
    intros Hin. apply list_elem_of_singleton in Hin. discriminate. }
  assert (Forall accepts (stack st_AB)) as Hacc.
  { change (Forall accepts [entryA; entryB]). repeat constructor.
    - exists VUndefined. split; [by left|discriminate].
    - exists (VBool true). split; [by right|discriminate]. }
  split; [exact Hnd|]. split; [exact Hacc|].
  destruct (presses_drain_lifo st_AB Hnd Hacc) as (Hst & Hinv & _).
  split; [exact Hinv|exact Hst].
Defined.

(** X11. While the top handler answers [false] or fails, signals never get
    past it: any number of them leave the registry as it is, call that one
    handler each time, and reach neither the entries below nor
    [fallback]. *)
Theorem presses_blocked_by_refusal
    (st : Static) (top : BackHandlerEntry) (n : nat) :
  last (stack st) = Some top → refuses top →
  presses n st = (st, replicate n (Handler top)).
Proof.
  intros Htop Href.
  assert (BackHandler.onBackPress [] st = (Fulfilled, st, [Handler top]))
    as Hone.
  { destruct Href;
      [by eapply onBackPress_declined; [|apply run_calls_nil|]
      |by eapply onBackPress_failed; [|apply run_calls_nil|]]. }
  induction n as [|n IH]; [done|].
  by rewrite presses_S, Hone, replicate_S; simpl; rewrite IH.
Qed.

Lemma presses_blocked_by_refusal_witness :
  last (stack st_keep) = Some entryKeep ∧ refuses entryKeep ∧
  presses 3 st_keep =
    (st_keep, [Handler entryKeep; Handler entryKeep; Handler entryKeep]).
Proof.
  assert (refuses entryKeep) as Href by (left; left; reflexivity).
  split; [reflexivity|]. split; [exact Href|].
  exact (presses_blocked_by_refusal st_keep entryKeep 3 eq_refl Href).
Defined.

(* ------------------------------------------------------------------------- *)
(** * Further properties: the scoped binding *)

Lemma use_push_eq onHide fresh w :
  UseBackHandler.push onHide fresh w =
  (fst (notified (_options (registry w)) onPush OnPush (mkEntry fresh onHide)),
   {| showing := showing w; entry := Some (mkEntry fresh onHide);
      registry := with_stack (registry w)
                    (stack (registry w) ++ [mkEntry fresh onHide]) |},
   snd (notified (_options (registry w)) onPush OnPush (mkEntry fresh onHide))).
Proof.
  unfold UseBackHandler.push, on_registry, set_entry, bind. simpl.
  rewrite push_run.
  by destruct (notified (_options (registry w)) onPush OnPush _)
    as [[[]|err|] evs].
Qed.

Lemma use_remove_absent w e :
  entry w = Some e → (∀ x, x ∈ stack (registry w) → ref x ≠ ref e) →
  UseBackHandler.remove w =
  (Ok tt, {| showing := showing w; entry := None; registry := registry w |}, []).
Proof.
  intros He Habs. rewrite (use_remove_run w e He).
  by rewrite remove_run_absent by (by apply indexOf_None).
Qed.

Lemma use_remove_none w :
  entry w = None → UseBackHandler.remove w = (Ok tt, w, []).
Proof.
  intros He. unfold UseBackHandler.remove, bind, get. simpl. by rewrite He.
Qed.

(** X12. [push()] then [remove()] of a binding, with a new object that is
    not on the stack: the registry is back to what it was.  The binding's
    reference is cleared exactly when [remove()] returned (the registry's
    [remove] did not throw); once it is cleared, a further [remove()] or a
    disposal does nothing at all. *)
Theorem use_push_then_remove
    (w : Scope) (onHide : unit → Completion) (fresh : nat) :
  (∀ x, x ∈ stack (registry w) → ref x ≠ fresh) →
  let w1 := snd (fst (UseBackHandler.push onHide fresh w)) in
  let w2 := snd (fst (UseBackHandler.remove w1)) in
  registry w2 = registry w ∧
  (entry w2 = None ↔ fst (fst (UseBackHandler.remove w1)) = Ok tt) ∧
  (entry w2 = None →
     UseBackHandler.remove w2 = (Ok tt, w2, []) ∧
     UseBackHandler.onScopeDispose w2 = (Ok tt, w2, [])).
Proof.
  intros Hfresh. simpl. rewrite use_push_eq. simpl.
  set (e := mkEntry fresh onHide).
  set (w1 := {| showing := showing w; entry := Some e;
                registry := with_stack (registry w) (stack (registry w) ++ [e]) |}).
  assert (BackHandler.remove e (registry w1) =
    (fst (notified (_options (registry w)) onRemove OnRemove e),
     registry w,
     snd (notified (_options (registry w)) onRemove OnRemove e))) as Hrm.
  { rewrite (remove_first_occurrence e (registry w1) (stack (registry w)) e []);
      [|done..]. simpl. rewrite app_nil_r. by destruct (registry w). }
  rewrite (use_remove_run w1 e eq_refl), Hrm.
  pose proof (notified_never_hangs (_options (registry w)) onRemove OnRemove e)
    as Hh.
  destruct (notified (_options (registry w)) onRemove OnRemove e)
    as [[[]|err|] evs]; simpl in *; [| |done].
  - split_and!; [done|done|]. intros _.
    split; [by apply use_remove_none|].
    rewrite use_dispose_run. simpl.
    destruct (showing w); [by apply use_remove_none|done].
  - split_and!; [done|split; done|done].
Qed.

Lemma use_push_then_remove_witness :
  (∀ x, x ∈ stack (registry (scope_of true st_AB)) → ref x ≠ 5) ∧
  registry (snd (fst (UseBackHandler.remove
    (snd (fst (UseBackHandler.push (fun _ => Rejects) 5
       (scope_of true st_AB))))))) = st_AB.
Proof.
  assert (∀ x, x ∈ stack (registry (scope_of true st_AB)) → ref x ≠ 5) as Hf.
  { intros x Hx. change (x ∈ [entryA; entryB]) in Hx.
    apply elem_of_cons in Hx as [->|Hx]; [discriminate|].
    apply list_elem_of_singleton in Hx as ->. discriminate. }
  split; [exact Hf|].
  exact (proj1 (use_push_then_remove (scope_of true st_AB)
                  (fun _ => Rejects) 5 Hf)).
Defined.

(** X13. Two [push()] calls of one binding without a [remove()] between
    them put two objects on the stack, and the binding keeps only the
    second: its [remove()] takes that one out, the first stays on the stack,
    and no further [remove()] of the binding takes it out. *)
Theorem use_push_twice_leaves_first
    (w : Scope) (onHide : unit → Completion) (f1 f2 : nat) :
  f1 ≠ f2 → (∀ x, x ∈ stack (registry w) → ref x ≠ f2) →
  let w2 := snd (fst (UseBackHandler.push onHide f2
                 (snd (fst (UseBackHandler.push onHide f1 w))))) in
  let w3 := snd (fst (UseBackHandler.remove w2)) in
  stack (registry w2) =
    stack (registry w) ++ [mkEntry f1 onHide; mkEntry f2 onHide] ∧
  entry w2 = Some (mkEntry f2 onHide) ∧
  stack (registry w3) = stack (registry w) ++ [mkEntry f1 onHide] ∧
  stack (registry (snd (fst (UseBackHandler.remove w3)))) =
    stack (registry w) ++ [mkEntry f1 onHide].
Proof.
  intros Hne Hfresh. simpl. rewrite !use_push_eq. simpl.
  set (e1 := mkEntry f1 onHide). set (e2 := mkEntry f2 onHide).
  set (st2 := with_stack _ _).
  set (w2 := {| showing := showing w; entry := Some e2; registry := st2 |}).
  assert (stack st2 = (stack (registry w) ++ [e1]) ++ e2 :: []) as Hst2
    by done.
  assert (∀ y, y ∈ stack (registry w) ++ [e1] → ref y ≠ ref e2) as Hl.
  { intros y [Hy|Hy]%elem_of_app; [by apply Hfresh|].
    apply list_elem_of_singleton in Hy as ->. done. }
  pose proof (remove_first_occurrence e2 st2 _ e2 [] Hst2 eq_refl Hl) as Hrm.
  rewrite app_nil_r in Hrm.
  pose proof (use_remove_registry w2 e2 eq_refl) as [Hreg _].
  change (registry w2) with st2 in Hreg. rewrite Hrm in Hreg. simpl in Hreg.
  split_and!.
  - by rewrite <- (assoc_L (++)) in Hst2.
  - done.
  - by rewrite Hreg.
  - set (w3 := snd (fst (UseBackHandler.remove w2))) in *.
    destruct (entry w3) as [e|] eqn:He.
    + assert (e = e2) as ->.
      { revert He. unfold w3. rewrite (use_remove_run w2 e2 eq_refl).
        destruct (BackHandler.remove e2 (registry w2)) as [[[[]|err|] s] evs];
          simpl; congruence. }
      rewrite (use_remove_absent w3 e2 He); [simpl; by rewrite Hreg|].
      rewrite Hreg. simpl. exact Hl.
    + rewrite use_remove_none by done. simpl. by rewrite Hreg.
Qed.

Lemma use_push_twice_leaves_first_witness :
  5 ≠ 6 ∧
  (∀ x, x ∈ stack (registry (scope_of true st_ready)) → ref x ≠ 6) ∧
  stack (registry (snd (fst (UseBackHandler.remove
    (snd (fst (UseBackHandler.push (fun _ => Rejects) 6
       (snd (fst (UseBackHandler.push (fun _ => Rejects) 5
          (scope_of true st_ready)))))))))))
  = [mkEntry 5 (fun _ => Rejects)].
Proof.
  assert (5 ≠ 6) as Hne by discriminate.
  assert (∀ x, x ∈ stack (registry (scope_of true st_ready)) → ref x ≠ 6)
    as Hf by (intros x Hx; by apply elem_of_nil in Hx).
  split; [exact Hne|]. split; [exact Hf|].
  exact (proj1 (proj2 (proj2 (use_push_twice_leaves_first
    (scope_of true st_ready) (fun _ => Rejects) 5 6 Hne Hf)))).
Defined.



(** X15. A binding used on a registry that was never initialized: its
    [push()] throws, yet the new entry is on the stack and owned by the
    binding; its [remove()] then takes the entry off the stack again and
    throws as well, before the binding's reference is cleared. *)
Theorem use_binding_uninitialized
    (w : Scope) (onHide : unit → Completion) (fresh : nat) :
  _options (registry w) = None →
  (∀ x, x ∈ stack (registry w) → ref x ≠ fresh) →
  let e := mkEntry fresh onHide in
  let w1 := snd (fst (UseBackHandler.push onHide fresh w)) in
  UseBackHandler.push onHide fresh w =
    (Throw NotInitialized,
     {| showing := showing w; entry := Some e;
        registry := with_stack (registry w) (stack (registry w) ++ [e]) |},
     []) ∧
  UseBackHandler.remove w1 =
    (Throw NotInitialized,
     {| showing := showing w; entry := Some e; registry := registry w |}, []).
Proof.
  intros Ho Hfresh. simpl. rewrite use_push_eq, Ho. simpl. split; [done|].
  set (e := mkEntry fresh onHide).
  set (w1 := {| showing := showing w; entry := Some e; registry := _ |}).
  rewrite (use_remove_run w1 e eq_refl).
  rewrite (remove_first_occurrence e (registry w1) (stack (registry w)) e []);
    [|done..].
  simpl. rewrite Ho, app_nil_r. simpl. by destruct (registry w).
Qed.

Lemma use_binding_uninitialized_witness :
  _options (registry (scope_of true initial)) = None ∧
  (∀ x, x ∈ stack (registry (scope_of true initial)) → ref x ≠ 5) ∧
  UseBackHandler.remove
    (snd (fst (UseBackHandler.push (fun _ => Rejects) 5
       (scope_of true initial)))) =
  (Throw NotInitialized,
   {| showing := true; entry := Some (mkEntry 5 (fun _ => Rejects));
      registry := initial |}, []).
Proof.
  assert (∀ x, x ∈ stack (registry (scope_of true initial)) → ref x ≠ 5)
    as Hf by (intros x Hx; by apply elem_of_nil in Hx).
  split; [reflexivity|]. split; [exact Hf|].
  exact (proj2 (use_binding_uninitialized (scope_of true initial)
                  (fun _ => Rejects) 5 eq_refl Hf)).
Defined.

(** X16. Disposing a binding after the registry was destroyed (the
    application unmounted first) does not throw and calls no observer, even
    though the registry has no options any more: the stack is empty, so the
    registry's [remove] never reads them. *)
Theorem use_dispose_after_destroy (w : Scope) (e : BackHandlerEntry) :
  entry w = Some e →
  let w' := {| showing := showing w; entry := entry w;
               registry := snd (fst (BackHandler.destroy (registry w))) |} in
  UseBackHandler.onScopeDispose w' =
  (Ok tt,
   {| showing := showing w;
      entry := if showing w then None else Some e;
      registry := initial |}, []).
Proof.
  intros He. simpl. rewrite use_dispose_run. simpl.
  destruct (showing w) eqn:Hs; [|by rewrite He].
  rewrite (use_remove_absent _ e); [done|done|].
  simpl. intros x Hx. by apply elem_of_nil in Hx.
Qed.

Lemma use_dispose_after_destroy_witness :
  entry (scope_pushed true) = Some (mkEntry 5 (fun _ => Returns VUndefined)) ∧
  UseBackHandler.onScopeDispose
    {| showing := true; entry := entry (scope_pushed true);
       registry := snd (fst (BackHandler.destroy
                      (registry (scope_pushed true)))) |} =
  (Ok tt, {| showing := true; entry := None; registry := initial |}, []).
Proof.
  split; [reflexivity|].
  exact (use_dispose_after_destroy (scope_pushed true)
           (mkEntry 5 (fun _ => Returns VUndefined)) eq_refl).
Defined.

(* ------------------------------------------------------------------------- *)
(** * Further properties: removal at the edges *)

(** X17. Removing twice an entry that is on the stack once: the first
    [remove] takes its slot out, the second finds nothing and does nothing,
    without an error and without calling [onRemove] again, whatever the
    first call did (returned or threw). *)
Theorem remove_twice_is_noop
    (st : Static) (e x : BackHandlerEntry) (l1 l2 : list BackHandlerEntry) :
  stack st = l1 ++ x :: l2 → ref x = ref e →
  (∀ y, y ∈ l1 ++ l2 → ref y ≠ ref e) →
  let st1 := snd (fst (BackHandler.remove e st)) in
  st1 = with_stack st (l1 ++ l2) ∧
  BackHandler.remove e st1 = (Ok tt, st1, []).
Proof.
  intros Hst Hx Habs. simpl.
  rewrite (remove_first_occurrence e st l1 x l2 Hst Hx).
  - simpl. split; [done|]. apply remove_run_absent, indexOf_None. exact Habs.
  - intros y Hy. apply Habs, elem_of_app. by left.
Qed.

Lemma remove_twice_is_noop_witness :
  stack st_AB = [] ++ entryA :: [entryB] ∧ ref entryA = ref entryA ∧
  (∀ y, y ∈ [] ++ [entryB] → ref y ≠ ref entryA) ∧
  BackHandler.remove entryA (with_stack st_AB [entryB]) =
    (Ok tt, with_stack st_AB [entryB], []).
Proof.
  assert (∀ y, y ∈ [] ++ [entryB] → ref y ≠ ref entryA) as Habs.
  { intros y Hy. apply list_elem_of_singleton in Hy as ->. discriminate. }
  split; [reflexivity|]. split; [reflexivity|]. split; [exact Habs|].
  exact (proj2 (remove_twice_is_noop st_AB entryA entryA [] [entryB]
                  eq_refl eq_refl Habs)).
Defined.

(** X18. A dispatch on a registry that has entries but no options (they
    were pushed before [init]): the top handler is called and, when it
    accepts, its entry is taken off the stack; the not-initialized error that
    [remove] then raises is caught, no observer is called and the promise is
    fulfilled. *)
Theorem onBackPress_uninitialized_nonempty
    (st : Static) (top : BackHandlerEntry) (l : list BackHandlerEntry) :
  _options st = None → stack st = l ++ [top] →
  (∀ y, y ∈ l → ref y ≠ ref top) → accepts top →
  fst (fst (BackHandler.remove top st)) = Throw NotInitialized ∧
  BackHandler.onBackPress [] st = (Fulfilled, with_stack st l, [Handler top]).
Proof.
  intros Ho Hst Hl (v & Hv & Hnf%is_not_false_true).
  assert (last (stack st) = Some top) as Htop by (rewrite Hst; apply last_snoc).
  rewrite (onBackPress_accepted st st [] [] top Htop (run_calls_nil st) v Hv Hnf).
  rewrite (remove_first_occurrence top st l top [] Hst eq_refl Hl), Ho.
  simpl. by rewrite app_nil_r.
Qed.

Lemma onBackPress_uninitialized_nonempty_witness :
  _options (with_stack initial [entryA]) = None ∧
  stack (with_stack initial [entryA]) = [] ++ [entryA] ∧
  accepts entryA ∧
  BackHandler.onBackPress [] (with_stack initial [entryA]) =
    (Fulfilled, initial, [Handler entryA]).
Proof.
  assert (accepts entryA) as Hacc.
  { exists VUndefined. split; [by left|discriminate]. }
  split; [reflexivity|]. split; [reflexivity|]. split; [exact Hacc|].
  refine (proj2 (onBackPress_uninitialized_nonempty
    (with_stack initial [entryA]) entryA [] eq_refl eq_refl _ Hacc)).
  intros y Hy. by apply elem_of_nil in Hy.
Defined.
